(** * The Starpoint natural-language image search demo

    A shallow embedding of the React client of the repository
    (src/frontend/src/App.tsx and its later revision src/unnamed/part_001)
    and of the search proxy the client talks to.  The first revision,
    src/unnamed/part_000, keeps the key and the collection name in hooks of
    [App] and has neither settings drawer nor local storage; it is embedded
    on its own, in [Part000].

    The client is a handful of React hooks around one network call.  The
    embedding keeps that shape:
    - the hook states of [App] and [Settings] are records,
    - [config] is the mutable ref shared by [App] and [Settings],
    - local storage is a finite map from keys to strings,
    - the [async] function [triggerSearch] is a small task tree whose
      nodes are the state setters it calls and the [fetch] it awaits,
    - the browser is a transition system whose events are the user's
      actions and the settling of a pending [fetch]. *)

From Stdlib Require Import PrimFloat.
From stdpp Require Import gmap strings list pretty.

(** ** JavaScript values *)

(** A JavaScript number is a binary64 float.  The client never computes
    with one, it only carries them from the response to the screen. *)
Definition number : Type := float.

(** The values a field of a result record may hold
    ([string | number | undefined | null]). *)
Inductive jsval : Type :=
| JUndefined
| JNull
| JString (s : string)
| JNumber (n : number).

(** [Error]: only the message is ever read ([err.message]). *)
Record Error : Type := { message : string }.

(** How a promise settles. *)
Inductive settled (A : Type) : Type :=
| fulfilled (a : A)
| rejected (e : Error).
Arguments fulfilled {A} a.
Arguments rejected {A} e.

(** [!s] for a string [s]: only the empty string is falsy. *)
Definition not_ (s : string) : bool := bool_decide (s = "").

(** [e && ...] for [e : string | null]: [null] and the empty string are
    falsy. *)
Definition truthy (e : option string) : bool :=
  match e with
  | None => false
  | Some s => negb (not_ s)
  end.

(** [s === undefined] for a value of static type [string]. *)
Definition is_undefined (s : string) : bool := false.

(** ** Data model *)

(** [interface SearchQuery]. *)
Module SearchQuery.
Record t : Type := {
  starpoint_api_key : string;
  starpoint_collection_name : string;
  query_to_embed : option string;
  sql : option string;
}.
End SearchQuery.

(** An element of [QueryResponse["results"]]: the two reserved fields and
    the index signature [[key: string]: string | number | undefined | null]. *)
Module Result.
Record t : Type := {
  __id : string;
  __distance : option number;
  fields : gmap string jsval;
}.

(** [result[key]]. *)
Definition get (result : t) (key : string) : jsval :=
  if decide (key = "__id") then JString (__id result)
  else if decide (key = "__distance") then
    from_option JNumber JUndefined (__distance result)
  else default JUndefined (fields result !! key).
End Result.

(** [interface QueryResponse].  [response.json()] is cast, not checked, and
    the render guards [results !== undefined]: [results] is [None] when the
    parsed body has no such member; when it has one, it is taken to be the
    array the interface declares.  The echoed [sql] is
    [string | undefined | null]; nothing reads it. *)
Module QueryResponse.
Record t : Type := {
  collection_id : string;
  result_count : number;
  sql : jsval;
  results : option (list Result.t);
}.
End QueryResponse.

(** [interface Config], the object behind the ref [config]. *)
Module Config.
Record t : Type := {
  apiKey : string;
  collectionName : string;
}.
End Config.

(** What the bundler, the browser and the component library supply.
    [TypeError_null] is the message of the TypeError thrown by reading the
    named member of [null]; its wording is the engine's.
    [Button_honours_disabled] says whether Chakra's [Button] disables the
    DOM button when it is given the DOM prop [disabled] instead of its own
    [isDisabled].  In @chakra-ui/react 2.8.0 it does not: the component
    sets [disabled={isDisabled || isLoading}] after spreading the other
    props. *)
Class Host : Type := {
  VITE_BACKEND_URL : string;
  Number_toString : number → string;
  JSON_stringify : Result.t → string;
  TypeError_null : string → string;
  Button_honours_disabled : bool;
}.

(** [`${v}`]: the string a template literal makes of a value. *)
Definition ToString `{Host} (v : jsval) : string :=
  match v with
  | JUndefined => "undefined"
  | JNull => "null"
  | JString s => s
  | JNumber n => Number_toString n
  end.

(** ** Local storage *)

Definition API_KEY_KEY : string := "api_key".
Definition COLLECTION_NAME_KEY : string := "collection_name".

Module localStorage.
Definition getItem (storage : gmap string string) (key : string)
  : option string := storage !! key.
Definition setItem (storage : gmap string string) (key value : string)
  : gmap string string := <[key := value]> storage.
End localStorage.

(** [a ?? b]. *)
Definition nullish (a : option string) (b : string) : string := default b a.

(** ** The network call *)

(** The [fetch] the client makes.  [body] is [JSON.stringify(data)]; the
    request is identified with the object it serialises. *)
Module Request.
Record t : Type := {
  url : string;
  method : string;
  mode : string;
  cache : string;
  credentials : string;
  content_type : string;
  redirect : string;
  referrerPolicy : string;
  body : SearchQuery.t;
}.
End Request.

(** The [Response] a fulfilled [fetch] hands back: all the client does with
    it is [response.json()], which parses the body or rejects.  What the
    body parses to is cast to [QueryResponse], not checked: it may also be
    the JSON value [null], no member of which can be read.  (Of any other
    value a member can be read; one without a [results] member reads as an
    object whose [results] is [None].) *)
Module Response.
Inductive body : Type :=
| null
| object (data : QueryResponse.t).

Record t : Type := { json : settled body }.
End Response.

(** ** The hook states of [App] *)

(** Which of the two revisions of App.tsx is meant: src/frontend/src/App.tsx
    or src/unnamed/part_001 (which adds the schema drawer, the image-info
    toggle and the initially open settings drawer). *)
Inductive revision : Type := AppTsx | Part001.

Module AppState.
Record t : Type := {
  query : string;
  sql : string;
  results : option (list Result.t);
  loading : bool;
  error : option string;
  isOpen : bool;
  isSchemaOpen : bool;
  showInfo : bool;
}.
End AppState.

(** The state setters [App] calls.  [onOpen]/[onClose] of a [useDisclosure]
    are its setter at [true]/[false]; [toggleShowInfo] passes the updater
    [value => !value]. *)
Inductive setter : Type :=
| setQuery (value : string)
| setSql (value : string)
| setResults (value : option (list Result.t))
| setLoading (value : bool)
| setError (value : option string)
| setIsOpen (value : bool)
| setIsSchemaOpen (value : bool)
| setShowInfo (updater : bool → bool).

(** The state after a setter has run. *)
Definition set_state (u : setter) (a : AppState.t) : AppState.t :=
  let '(AppState.Build_t q s r l e o so i) := a in
  match u with
  | setQuery v => AppState.Build_t v s r l e o so i
  | setSql v => AppState.Build_t q v r l e o so i
  | setResults v => AppState.Build_t q s v l e o so i
  | setLoading v => AppState.Build_t q s r v e o so i
  | setError v => AppState.Build_t q s r l v o so i
  | setIsOpen v => AppState.Build_t q s r l e v so i
  | setIsSchemaOpen v => AppState.Build_t q s r l e o v i
  | setShowInfo f => AppState.Build_t q s r l e o so (f i)
  end.

(** Whether React sees a new value ([Object.is] on the old and the new one)
    and so renders [App] again.  A parsed response is a fresh array each
    time, never identical to the one held. *)
Definition changes (u : setter) (a : AppState.t) : bool :=
  match u with
  | setQuery v => bool_decide (v ≠ AppState.query a)
  | setSql v => bool_decide (v ≠ AppState.sql a)
  | setResults v =>
      match v, AppState.results a with
      | None, None => false
      | _, _ => true
      end
  | setLoading v => bool_decide (v ≠ AppState.loading a)
  | setError v => bool_decide (v ≠ AppState.error a)
  | setIsOpen v => bool_decide (v ≠ AppState.isOpen a)
  | setIsSchemaOpen v => bool_decide (v ≠ AppState.isSchemaOpen a)
  | setShowInfo f => bool_decide (f (AppState.showInfo a) ≠ AppState.showInfo a)
  end.

(** ** Asynchronous functions *)

(** An [async] function as the tree of what it does: it returns, throws,
    calls a state setter, or awaits a [fetch] and goes on with what the
    promise settled to. *)
Inductive task (A : Type) : Type :=
| Return (a : A)
| Throw (e : Error)
| Call (u : setter) (k : task A)
| Await (rq : Request.t) (k : settled Response.t → task A).
Arguments Return {A} a.
Arguments Throw {A} e.
Arguments Call {A} u k.
Arguments Await {A} rq k.

Fixpoint task_bind {A B} (f : A → task B) (t : task A) : task B :=
  match t with
  | Return a => f a
  | Throw e => Throw e
  | Call u k => Call u (task_bind f k)
  | Await rq k => Await rq (λ r, task_bind f (k r))
  end.

#[global] Instance task_mret : MRet task := @Return.
#[global] Instance task_mbind : MBind task := @task_bind.

(** [try { t } catch (e) { handler e }]. *)
Fixpoint try_catch {A} (t : task A) (handler : Error → task A) : task A :=
  match t with
  | Return a => Return a
  | Throw e => handler e
  | Call u k => Call u (try_catch k handler)
  | Await rq k => Await rq (λ r, try_catch (k r) handler)
  end.

(** [try { t } finally { cleanup }]: the cleanup runs on both ways out, and
    the outcome of [t] is kept. *)
Fixpoint try_finally {A} (t : task A) (cleanup : task unit) : task A :=
  match t with
  | Return a => cleanup;; Return a
  | Throw e => cleanup;; Throw e
  | Call u k => Call u (try_finally k cleanup)
  | Await rq k => Await rq (λ r, try_finally (k r) cleanup)
  end.

(** Calling a setter from a task. *)
Definition call (u : setter) : task unit := Call u (Return tt).

(** [await p] for the promise of a [fetch]. *)
Definition fetch (rq : Request.t) : task Response.t :=
  Await rq (λ r,
    match r with
    | fulfilled response => Return response
    | rejected e => Throw e
    end).

(** [await response.json()]. *)
Definition json (response : Response.t) : task Response.body :=
  match Response.json response with
  | fulfilled data => Return data
  | rejected e => Throw e
  end.

(** The arguments [search] gives [fetch]. *)
Definition search_request `{Host} (data : SearchQuery.t) : Request.t := {|
  Request.url := VITE_BACKEND_URL +:+ "/search";
  Request.method := "POST";
  Request.mode := "cors";
  Request.cache := "no-cache";
  Request.credentials := "same-origin";
  Request.content_type := "application/json";
  Request.redirect := "follow";
  Request.referrerPolicy := "no-referrer";
  Request.body := data;
|}.

(** [async function search(data)]. *)
Definition search `{Host} (data : SearchQuery.t) : task Response.body :=
  response ← fetch (search_request data);
  json response.

(** [response.results]: reading a member of [null] throws a TypeError. *)
Definition results_of `{Host} (response : Response.body)
  : task (option (list Result.t)) :=
  match response with
  | Response.null => Throw {| message := TypeError_null "results" |}
  | Response.object data => Return (QueryResponse.results data)
  end.

(** [triggerSearch], the body of the [useCallback] in [App].  [config] is
    [config.current] as the call finds it; [query] and [sql] are the values
    the closure captured. *)
Definition triggerSearch `{Host} (config : Config.t) (query sql : string)
  : task unit :=
  if not_ (Config.apiKey config) || not_ (Config.collectionName config) then
    Return tt
  else
    call (setLoading true);;
    call (setError None);;
    try_finally
      (try_catch
         (response ← search {|
            SearchQuery.starpoint_api_key := Config.apiKey config;
            SearchQuery.starpoint_collection_name := Config.collectionName config;
            SearchQuery.query_to_embed := Some query;
            SearchQuery.sql := Some sql;
          |};
          results ← results_of response;
          call (setResults results))
         (λ err, call (setError (Some (message err)))))
      (call (setLoading false)).

(** ** [ImageCard] *)

Module ImageCard.
(** [interface ImageCardProps].  [photoId] and [description] are declared
    [string], but come from an unchecked [as string] on a record field.
    [showInfo] is the optional prop of part_001; App.tsx has no such prop. *)
Record props : Type := {
  photoUrl : string;
  photoId : jsval;
  description : jsval;
  extra : string;
  showInfo : option bool;
}.

(** Its own hooks: the modal's [useDisclosure] and [loadArt]. *)
Record state : Type := {
  isOpen : bool;
  loadArt : bool;
}.

(** What a card shows: the lazily loaded image, the info body (heading,
    text, read-only textarea) and the image of the modal. *)
Record view : Type := {
  image_src : option string;
  info : option (jsval * jsval * string);
  modal_src : option string;
}.

Definition render (rev : revision) (p : props) (st : state) : view := {|
  image_src := if loadArt st then Some (photoUrl p) else None;
  info :=
    if match rev with
       | AppTsx => true
       | Part001 => default false (showInfo p)
       end
    then Some (photoId p, description p, extra p)
    else None;
  modal_src := if isOpen st then Some (photoUrl p) else None;
|}.

(** *** The life of one card *)

(** A mounted card: its hooks, and whether the [InView] around the image
    still observes.  [triggerOnce] makes [InView] stop observing after the
    first report that the card is in view. *)
Record mounted : Type := {
  hooks : state;
  observing : bool;
}.

(** The first render: both hooks are [false]. *)
Definition mount : mounted := {|
  hooks := {| isOpen := false; loadArt := false |};
  observing := true;
|}.

(** What can happen to a card: the observer reports, the image of the card
    or the image of the modal is clicked, the modal is closed. *)
Inductive event : Type :=
| Intersect (inView : bool)
| ClickImage
| ClickModalImage
| CloseModal.

(** One event.  [onChange] of [InView] is [setLoadArt]; [onClick] of both
    images is [onOpen].  An image that is not rendered cannot be clicked,
    and a modal that is not open cannot be closed. *)
Definition step (c : mounted) (e : event) : mounted :=
  match e with
  | Intersect inView =>
      if observing c then
        {| hooks := {| isOpen := isOpen (hooks c); loadArt := inView |};
           observing := negb inView |}
      else c
  | ClickImage =>
      if loadArt (hooks c) then
        {| hooks := {| isOpen := true; loadArt := loadArt (hooks c) |};
           observing := observing c |}
      else c
  | ClickModalImage =>
      if isOpen (hooks c) then
        {| hooks := {| isOpen := true; loadArt := loadArt (hooks c) |};
           observing := observing c |}
      else c
  | CloseModal =>
      if isOpen (hooks c) then
        {| hooks := {| isOpen := false; loadArt := loadArt (hooks c) |};
           observing := observing c |}
      else c
  end.
End ImageCard.

(** ** [Settings] *)

Module Settings.
(** Its hooks. *)
Record state : Type := {
  collectionName : string;
  apiKey : string;
  show : bool;
}.

(** The first render: both inputs start from [config.current]. *)
Definition mount (config : Config.t) : state := {|
  collectionName := Config.collectionName config;
  apiKey := Config.apiKey config;
  show := false;
|}.

Record view : Type := {
  form_isInvalid : bool;
  api_isInvalid : bool;
  api_type : string;
  api_value : string;
  show_label : string;
  api_message : option string;
  collection_isInvalid : bool;
  collection_value : string;
  collection_message : option string;
}.

Definition render (st : state) : view :=
  let isError_api := bool_decide (String.length (apiKey st) = 0) in
  let isError_collectionName :=
    bool_decide (String.length (collectionName st) = 0) in
  {|
    form_isInvalid := isError_api || isError_collectionName;
    api_isInvalid := isError_api;
    api_type := if show st then "text" else "password";
    api_value := apiKey st;
    show_label := if show st then "Hide" else "Show";
    api_message := if isError_api then Some "API Key is required" else None;
    collection_isInvalid := isError_collectionName;
    collection_value := collectionName st;
    collection_message :=
      if isError_collectionName then Some "Collection Name is required"
      else None;
  |}.

(** [onChange] of the API key input: the hook, the shared ref and local
    storage, in that order. *)
Definition onChange_apiKey (value : string)
    (st : state) (config : Config.t) (storage : gmap string string)
  : state * Config.t * gmap string string :=
  ({| collectionName := collectionName st; apiKey := value; show := show st |},
   {| Config.apiKey := value;
      Config.collectionName := Config.collectionName config |},
   localStorage.setItem storage API_KEY_KEY value).

(** [onChange] of the collection name input. *)
Definition onChange_collectionName (value : string)
    (st : state) (config : Config.t) (storage : gmap string string)
  : state * Config.t * gmap string string :=
  ({| collectionName := value; apiKey := apiKey st; show := show st |},
   {| Config.apiKey := Config.apiKey config;
      Config.collectionName := value |},
   localStorage.setItem storage COLLECTION_NAME_KEY value).

(** [handleClick] of the Show/Hide button. *)
Definition handleClick (st : state) : state :=
  {| collectionName := collectionName st; apiKey := apiKey st;
     show := negb (show st) |}.
End Settings.

(** ** [App] *)

Module App.
(** The closure [useCallback] keeps: [triggerSearch] with the [query] and
    [sql] of the render that made it. *)
Record callback : Type := {
  bound_query : string;
  bound_sql : string;
}.

(** The cell of [useCallback(fn, [query, sql])]. *)
Record memo : Type := {
  deps : string * string;
  fn : callback;
}.

(** A render keeps the stored closure while the dependencies are the same
    and stores the new one otherwise. *)
Definition useCallback (cell : option memo) (new : callback)
    (new_deps : string * string) : memo :=
  match cell with
  | Some m =>
      if decide (deps m = new_deps) then m
      else {| deps := new_deps; fn := new |}
  | None => {| deps := new_deps; fn := new |}
  end.

(** An [<ImageCard key=... .../>] element. *)
Record element : Type := {
  key : jsval;
  props : ImageCard.props;
}.

Record view : Type := {
  query_value : string;
  sql_value : string;
  info_button : option string;
  search_disabled : bool;
  search_onClick : callback;
  spinner : bool;
  error_div : option string;
  wrap : option (list element);
  settings_drawer : bool;
  schema_drawer : bool;
}.

Section Render.
Context `{Host} (rev : revision).

(** The function passed to [results.map]. *)
Definition card (showInfo : bool) (result : Result.t) : element :=
  let WIDTH : Z := 320%Z in
  let photoId := Result.get result "photo_id" in
  let photoUrl :=
    "https://unsplash.com/photos/" +:+ ToString photoId
      +:+ "/download?w=" +:+ pretty WIDTH in
  let description := Result.get result "ai_description" in
  {| key := photoId;
     props := {|
       ImageCard.photoId := photoId;
       ImageCard.photoUrl := photoUrl;
       ImageCard.description := description;
       ImageCard.extra := JSON_stringify result;
       ImageCard.showInfo :=
         match rev with
         | AppTsx => None
         | Part001 => Some showInfo
         end;
     |} |}.

(** The initial hook states.  [config] is the ref's first value. *)
Definition init (config : Config.t) : AppState.t := {|
  AppState.query := "";
  AppState.sql := "";
  AppState.results := Some [];
  AppState.loading := false;
  AppState.error := None;
  AppState.isOpen :=
    match rev with
    | AppTsx => false
    | Part001 =>
        is_undefined (Config.apiKey config)
        || bool_decide (Config.apiKey config = "")
        || is_undefined (Config.collectionName config)
        || bool_decide (Config.collectionName config = "")
    end;
  AppState.isSchemaOpen := false;
  AppState.showInfo := false;
|}.

(** One run of the component function: the [useCallback] cell and what is
    put on screen. *)
Definition render (config : Config.t) (a : AppState.t) (cell : option memo)
  : memo * view :=
  let triggerSearch :=
    useCallback cell
      {| bound_query := AppState.query a; bound_sql := AppState.sql a |}
      (AppState.query a, AppState.sql a) in
  (triggerSearch,
   {| query_value := AppState.query a;
      sql_value := AppState.sql a;
      info_button :=
        match rev with
        | AppTsx => None
        | Part001 =>
            Some (if AppState.showInfo a then "Hide Image Info"
                  else "Show Image Info")
        end;
      search_disabled :=
        AppState.loading a
        || not_ (Config.apiKey config)
        || not_ (Config.collectionName config);
      search_onClick := fn triggerSearch;
      spinner := AppState.loading a;
      error_div := if truthy (AppState.error a) then AppState.error a else None;
      wrap := map (card (AppState.showInfo a)) <$> AppState.results a;
      settings_drawer := AppState.isOpen a;
      schema_drawer := AppState.isSchemaOpen a;
   |}).
End Render.
End App.

(** ** The page as a transition system *)

(** Everything the page consists of between two events: local storage, the
    object behind the ref [config], the hooks of [App], the [useCallback]
    cell and the screen as the last render of [App] left them, the hooks of
    [Settings] while the drawer has it mounted, the fetches in flight with
    the rest of the [triggerSearch] call awaiting each, and every fetch made
    so far, oldest first. *)
Record system : Type := {
  storage : gmap string string;
  config : Config.t;
  app : AppState.t;
  cell : App.memo;
  screen : App.view;
  settings : option Settings.state;
  pending : list (Request.t * (settled Response.t → task unit));
  issued : list Request.t;
}.

(** What the user and the network can do to the page. *)
Inductive event : Type :=
| ChangeQuery (value : string)
| ChangeSql (value : string)
| ClickSettings
| CloseSettings
| ChangeApiKey (value : string)
| ChangeCollectionName (value : string)
| ClickShow
| ClickShowInfo
| ClickViewSchema
| CloseSchema
| ClickSearch
| Settle (i : nat) (r : settled Response.t)
| Rerender.

Definition with_app (a : AppState.t) (s : system) : system := {|
  storage := storage s; config := config s; app := a; cell := cell s;
  screen := screen s; settings := settings s; pending := pending s;
  issued := issued s;
|}.

Definition with_settings (st : Settings.state) (c : Config.t)
    (ls : gmap string string) (s : system) : system := {|
  storage := ls; config := c; app := app s; cell := cell s;
  screen := screen s; settings := Some st; pending := pending s;
  issued := issued s;
|}.

(** A [fetch] leaves the page: it is in flight until it settles. *)
Definition suspend (rq : Request.t) (k : settled Response.t → task unit)
    (s : system) : system := {|
  storage := storage s; config := config s; app := app s; cell := cell s;
  screen := screen s; settings := settings s;
  pending := pending s ++ [(rq, k)];
  issued := issued s ++ [rq];
|}.

(** The [i]-th fetch in flight has settled. *)
Definition resume (i : nat) (s : system) : system := {|
  storage := storage s; config := config s; app := app s; cell := cell s;
  screen := screen s; settings := settings s;
  pending := delete i (pending s);
  issued := issued s;
|}.

(** A task runs up to its next [await] (or its end; nothing observes an
    error it ends with).  The flag says whether a setter changed a hook,
    that is, whether React must render again. *)
Fixpoint run (t : task unit) (s : system) : system * bool :=
  match t with
  | Return _ => (s, false)
  | Throw _ => (s, false)
  | Call u k =>
      let '(s', dirty) := run k (with_app (set_state u (app s)) s) in
      (s', changes u (app s) || dirty)
  | Await rq k => (suspend rq k s, false)
  end.

Section Page.
Context `{Host} (rev : revision).

(** React renders [App] again: the callback cell and the screen are
    refreshed, and the settings drawer mounts [Settings] when it opens and
    unmounts it when it closes. *)
Definition commit (s : system) : system :=
  let '(m, v) := App.render rev (config s) (app s) (Some (cell s)) in
  {| storage := storage s; config := config s; app := app s;
     cell := m; screen := v;
     settings :=
       if AppState.isOpen (app s)
       then Some (default (Settings.mount (config s)) (settings s))
       else None;
     pending := pending s; issued := issued s |}.

Definition flush (r : system * bool) : system :=
  if r.2 then commit r.1 else r.1.

(** The page as it first renders over a given local storage. *)
Definition start (storage0 : gmap string string) : system :=
  let config0 := {|
    Config.apiKey := nullish (localStorage.getItem storage0 API_KEY_KEY) "";
    Config.collectionName :=
      nullish (localStorage.getItem storage0 COLLECTION_NAME_KEY) "";
  |} in
  let a := App.init rev config0 in
  let '(m, v) := App.render rev config0 a None in
  {| storage := storage0; config := config0; app := a;
     cell := m; screen := v;
     settings :=
       if AppState.isOpen a then Some (Settings.mount config0) else None;
     pending := []; issued := [] |}.

(** One event: its handler runs, and React renders [App] again when a hook
    of [App] changed.  An event whose control is not on the page (an input
    of the closed drawer, a button App.tsx does not have) changes nothing.
    A click on Search runs [triggerSearch], which has no test of [loading]
    of its own, unless the [disabled] the button was last rendered with is
    set and Chakra's [Button] honours it.  A keystroke in [Settings]
    renders [Settings] only: the Search button keeps the [disabled] it was
    last rendered with.  Every control may be used at any time, also behind
    an open drawer, and [Rerender] lets React run [App] again whenever it
    likes. *)
Definition step (s : system) (e : event) : system :=
  match e with
  | ChangeQuery value => flush (run (call (setQuery value)) s)
  | ChangeSql value => flush (run (call (setSql value)) s)
  | ClickSettings => flush (run (call (setIsOpen true)) s)
  | CloseSettings => flush (run (call (setIsOpen false)) s)
  | ChangeApiKey value =>
      match settings s with
      | Some st =>
          let '(st', c, ls) :=
            Settings.onChange_apiKey value st (config s) (storage s) in
          with_settings st' c ls s
      | None => s
      end
  | ChangeCollectionName value =>
      match settings s with
      | Some st =>
          let '(st', c, ls) :=
            Settings.onChange_collectionName value st (config s) (storage s) in
          with_settings st' c ls s
      | None => s
      end
  | ClickShow =>
      match settings s with
      | Some st =>
          with_settings (Settings.handleClick st) (config s) (storage s) s
      | None => s
      end
  | ClickShowInfo =>
      match rev with
      | AppTsx => s
      | Part001 => flush (run (call (setShowInfo negb)) s)
      end
  | ClickViewSchema =>
      match rev with
      | AppTsx => s
      | Part001 => flush (run (call (setIsSchemaOpen true)) s)
      end
  | CloseSchema =>
      match rev with
      | AppTsx => s
      | Part001 => flush (run (call (setIsSchemaOpen false)) s)
      end
  | ClickSearch =>
      if Button_honours_disabled && App.search_disabled (screen s) then s
      else
        let f := App.search_onClick (screen s) in
        flush (run (triggerSearch (config s) (App.bound_query f)
                      (App.bound_sql f)) s)
  | Settle i r =>
      match pending s !! i with
      | Some (_, k) => flush (run (k r) (resume i s))
      | None => s
      end
  | Rerender => commit s
  end.

(** The states the page can be in. *)
Inductive reachable : system → Prop :=
| reachable_start storage0 : reachable (start storage0)
| reachable_step s e : reachable s → reachable (step s e).

Definition steps (s : system) (es : list event) : system :=
  foldl step s es.
End Page.

(** ** The backend proxy *)

Module Proxy.
(** One exchange of the proxy: the payload it forwarded to the external
    API and the response it returned to its caller. *)
Record exchange (Reply : Type) : Type := {
  forwarded : SearchQuery.t;
  returned : Reply;
}.
Arguments forwarded {Reply} e.
Arguments returned {Reply} e.

(** Modelled from the spec: the route of the backend proxy, the FastAPI
    application the Dockerfile starts ([backend.app.api:app]), whose code
    is not among the sources.  The spec: it "receives a search request,
    forwards it to the external vector-search API, returns the response
    verbatim".  [external_api] is the third-party service, opaque. *)
Definition search {Reply : Type} (external_api : SearchQuery.t → Reply)
    (payload : SearchQuery.t) : exchange Reply := {|
  forwarded := payload;
  returned := external_api payload;
|}.
End Proxy.

(** ** Vocabulary of the statements *)

(** What the promise of [search] settles to, given how its [fetch] settled:
    a network failure rejects it, and so does a body that does not parse. *)
Definition search_promise (r : settled Response.t) : settled Response.body :=
  match r with
  | fulfilled response => Response.json response
  | rejected e => rejected e
  end.

(** How the [try] block gets on with what [search] settled to: it has the
    response whose [results] it goes on to set, or something was thrown,
    be it what rejected the promise or the TypeError of reading [results]
    of a [null] body. *)
Definition search_outcome `{Host} (r : settled Response.t)
  : settled QueryResponse.t :=
  match search_promise r with
  | fulfilled (Response.object data) => fulfilled data
  | fulfilled Response.null =>
      rejected {| message := TypeError_null "results" |}
  | rejected e => rejected e
  end.

(** The rest of a [triggerSearch] call once its [fetch] has settled: the
    [try] or the [catch] branch, then the [finally] block. *)
Definition completion `{Host} (r : settled Response.t) : task unit :=
  match search_outcome r with
  | fulfilled response =>
      Call (setResults (QueryResponse.results response))
        (Call (setLoading false) (Return tt))
  | rejected err =>
      Call (setError (Some (message err)))
        (Call (setLoading false) (Return tt))
  end.

(** The query [triggerSearch] builds from the ref and the two text fields. *)
Definition form_query (config : Config.t) (query sql : string)
  : SearchQuery.t := {|
  SearchQuery.starpoint_api_key := Config.apiKey config;
  SearchQuery.starpoint_collection_name := Config.collectionName config;
  SearchQuery.query_to_embed := Some query;
  SearchQuery.sql := Some sql;
|}.

(** Both settings are filled in. *)
Definition configured (config : Config.t) : Prop :=
  Config.apiKey config ≠ "" ∧ Config.collectionName config ≠ "".

(** The hooks as [triggerSearch] leaves them when it reaches its [await]. *)
Definition searching (a : AppState.t) : AppState.t :=
  set_state (setError None) (set_state (setLoading true) a).

(** The setter the [try] or the [catch] branch calls. *)
Definition settle_setter `{Host} (r : settled Response.t) : setter :=
  match search_outcome r with
  | fulfilled response => setResults (QueryResponse.results response)
  | rejected err => setError (Some (message err))
  end.

(** The hooks once the [finally] block has run. *)
Definition settled_app `{Host} (r : settled Response.t) (a : AppState.t)
  : AppState.t :=
  set_state (setLoading false) (set_state (settle_setter r) a).

(** The setters that write none of [results], [loading] and [error]. *)
Definition quiet (u : setter) : Prop :=
  match u with
  | setLoading _ | setError _ | setResults _ => False
  | _ => True
  end.

(** *** Invariants of the page *)

(** The stored closure is the one made from the stored dependencies. *)
Definition cell_wf (m : App.memo) : Prop :=
  App.fn m =
  {| App.bound_query := (App.deps m).1; App.bound_sql := (App.deps m).2 |}.

(** What awaits a fetch in flight is the rest of a [triggerSearch] call. *)
Definition flight_ok `{Host} (s : system) : Prop :=
  Forall (λ p, ∀ r, p.2 r = completion r) (pending s).

(** Every fetch made carried a key and a collection name. *)
Definition issued_ok (s : system) : Prop :=
  Forall (λ rq,
    SearchQuery.starpoint_api_key (Request.body rq) ≠ ""
    ∧ SearchQuery.starpoint_collection_name (Request.body rq) ≠ "")
    (issued s).

(** The ref holds what local storage holds (the empty string for an entry
    that is not there). *)
Definition config_ok (s : system) : Prop :=
  Config.apiKey (config s)
  = nullish (localStorage.getItem (storage s) API_KEY_KEY) ""
  ∧ Config.collectionName (config s)
    = nullish (localStorage.getItem (storage s) COLLECTION_NAME_KEY) "".

(** The inputs of a mounted [Settings] show what the ref holds. *)
Definition settings_ok (s : system) : Prop :=
  ∀ st, settings s = Some st →
    Settings.api_value (Settings.render st) = Config.apiKey (config s)
    ∧ Settings.collection_value (Settings.render st)
      = Config.collectionName (config s).

(** What holds whether or not [App] has rendered since the last change. *)
Definition base `{Host} (s : system) : Prop :=
  cell_wf (cell s) ∧ flight_ok s ∧ issued_ok s ∧ config_ok s ∧ settings_ok s.

(** What a render of [App] establishes: the closure is the one of the
    current [query] and [sql], the screen shows the current hooks (the
    Search button as some earlier content of the ref enabled it), and
    [Settings] is mounted exactly while its drawer is open. *)
Definition synced `{Host} (rev : revision) (s : system) : Prop :=
  App.deps (cell s) = (AppState.query (app s), AppState.sql (app s))
  ∧ (∃ c, screen s = (App.render rev c (app s) (Some (cell s))).2)
  ∧ (is_Some (settings s) ↔ AppState.isOpen (app s) = true).

Definition invariant `{Host} (rev : revision) (s : system) : Prop :=
  base s ∧ synced rev s.

(** ** An example session *)

(** A host (its Chakra is 2.8.0), a filled-in local storage, and a page on
    which one search is in flight. *)
Definition example_host : Host := {|
  VITE_BACKEND_URL := "http://localhost:8000";
  Number_toString := λ _, "0";
  JSON_stringify := Result.__id;
  TypeError_null := λ member,
    "Cannot read properties of null (reading '" +:+ member +:+ "')";
  Button_honours_disabled := false;
|}.

Definition example_storage : gmap string string :=
  {[ "api_key" := "key"; "collection_name" := "photos" ]}.

Definition example_form : system :=
  steps (H := example_host) Part001
    (start (H := example_host) Part001 example_storage)
    [ChangeQuery "a road in the forest";
     ChangeSql "SELECT * FROM collection"].

Definition example_searching : system :=
  step (H := example_host) Part001 example_form ClickSearch.

Definition example_records : list Result.t :=
  [ {| Result.__id := "1"; Result.__distance := Some 0.25%float;
       Result.fields := {[ "photo_id" := JString "abc";
                           "ai_description" := JString "a forest road" ]} |};
    {| Result.__id := "2"; Result.__distance := None;
       Result.fields := {[ "photo_id" := JString "xyz" ]} |} ].

Definition example_data : QueryResponse.t := {|
  QueryResponse.collection_id := "c0";
  QueryResponse.result_count := 2%float;
  QueryResponse.sql := JNull;
  QueryResponse.results := Some example_records;
|}.

Definition example_response : settled Response.t :=
  fulfilled {| Response.json := fulfilled (Response.object example_data) |}.

(** The page once the search has brought the two records, the page on
    which a second search is then in flight, and a response whose body is
    the JSON value [null]. *)
Definition example_shown : system :=
  step (H := example_host) Part001 example_searching
    (Settle 0 example_response).

Definition example_searching_again : system :=
  step (H := example_host) Part001 example_shown ClickSearch.

Definition example_null_body : settled Response.t :=
  fulfilled {| Response.json := fulfilled Response.null |}.

(** ** More vocabulary *)

(** One search at a time: a fetch is in flight exactly while [loading] is
    set, and then it is the only one and no error is held. *)
Definition single_flight (s : system) : Prop :=
  (pending s = [] ∧ AppState.loading (app s) = false)
  ∨ (∃ p, pending s = [p]
       ∧ AppState.loading (app s) = true
       ∧ AppState.error (app s) = None).

(** While the settings drawer is closed the screen is the render of the
    current hooks under the current ref. *)
Definition closed_fresh `{Host} (rev : revision) (s : system) : Prop :=
  AppState.isOpen (app s) = false →
  screen s = (App.render rev (config s) (app s) (Some (cell s))).2.

(** ** [SqlEditor] (src/frontend/src/components/SqlEditor.tsx) *)

Module SqlEditor.
(** [useColorModeValue(light, dark)]. *)
Definition useColorModeValue {A : Type} (dark_mode : bool)
    (light dark : A) : A :=
  if dark_mode then dark else light.

(** The code editor and the label over it. *)
Record view : Type := {
  placeholder : string;
  language : string;
  data_color_mode : string;
  value : string;
  label_color : string;
  label : string;
}.

Definition render (dark_mode : bool) (query : string) : view :=
  let color := useColorModeValue dark_mode "light" "dark" in
  let labelColor := useColorModeValue dark_mode "black" "white" in
  {| placeholder := "SELECT * FROM collection;";
     language := "sql";
     data_color_mode := color;
     value := query;
     label_color := labelColor;
     label := "SQL" |}.

(** [onChange] of the editor: the prop [onChange] gets [e.target.value]. *)
Definition handleChange {A : Type} (onChange : string → A)
    (target_value : string) : A :=
  onChange target_value.
End SqlEditor.

(** ** The first revision of [App] (src/unnamed/part_000) *)

Module Part000.
(** The hooks: the API key and the collection name are hooks of [App]
    here, next to the two text fields, the results and the two flags. *)
Record state : Type := {
  apiKey : string;
  collectionName : string;
  query : string;
  sql : string;
  results : option (list Result.t);
  loading : bool;
  error : option string;
}.

Definition init : state := {|
  apiKey := ""; collectionName := ""; query := ""; sql := "";
  results := Some []; loading := false; error := None;
|}.

Definition setApiKey (value : string) (a : state) : state :=
  {| apiKey := value; collectionName := collectionName a; query := query a;
     sql := sql a; results := results a; loading := loading a;
     error := error a |}.

Definition setCollectionName (value : string) (a : state) : state :=
  {| apiKey := apiKey a; collectionName := value; query := query a;
     sql := sql a; results := results a; loading := loading a;
     error := error a |}.

(** The other five setters.  The hooks of the later revisions do not
    exist here, and nothing calls their setters. *)
Definition set_state (u : setter) (a : state) : state :=
  match u with
  | setQuery v =>
      {| apiKey := apiKey a; collectionName := collectionName a; query := v;
         sql := sql a; results := results a; loading := loading a;
         error := error a |}
  | setSql v =>
      {| apiKey := apiKey a; collectionName := collectionName a;
         query := query a; sql := v; results := results a;
         loading := loading a; error := error a |}
  | setResults v =>
      {| apiKey := apiKey a; collectionName := collectionName a;
         query := query a; sql := sql a; results := v; loading := loading a;
         error := error a |}
  | setLoading v =>
      {| apiKey := apiKey a; collectionName := collectionName a;
         query := query a; sql := sql a; results := results a; loading := v;
         error := error a |}
  | setError v =>
      {| apiKey := apiKey a; collectionName := collectionName a;
         query := query a; sql := sql a; results := results a;
         loading := loading a; error := v |}
  | _ => a
  end.

(** [triggerSearch] of part_000: the closure captures all four texts. *)
Definition triggerSearch `{Host} (apiKey collectionName query sql : string)
  : task unit :=
  if not_ apiKey || not_ collectionName then
    Return tt
  else
    call (setLoading true);;
    call (setError None);;
    try_finally
      (try_catch
         (response ← search {|
            SearchQuery.starpoint_api_key := apiKey;
            SearchQuery.starpoint_collection_name := collectionName;
            SearchQuery.query_to_embed := Some query;
            SearchQuery.sql := Some sql;
          |};
          results ← results_of response;
          call (setResults results))
         (λ err, call (setError (Some (message err)))))
      (call (setLoading false)).

(** The four dependencies of [useCallback], which are also what the
    closure captures: [[query, sql, apiKey, collectionName]]. *)
Record deps : Type := {
  dep_query : string;
  dep_sql : string;
  dep_apiKey : string;
  dep_collectionName : string;
}.

#[global] Instance deps_eq_dec : EqDecision deps.
Proof. solve_decision. Defined.

(** The cell of [useCallback]: the dependencies of the render that made
    the stored closure, and what that closure captured. *)
Record memo : Type := {
  stored : deps;
  bound : deps;
}.

Definition useCallback (cell : option memo) (new : deps) : memo :=
  match cell with
  | Some m =>
      if decide (stored m = new) then m else {| stored := new; bound := new |}
  | None => {| stored := new; bound := new |}
  end.

(** An [<img>] of the result list. *)
Record img : Type := {
  src : string;
  width : string;
}.

Record view : Type := {
  apiKey_value : string;
  collectionName_value : string;
  query_value : string;
  sql_value : string;
  search_disabled : bool;
  search_onClick : deps;
  loading_div : bool;
  error_div : option string;
  images : list img;
}.

Section Render.
Context `{Host}.

(** The function passed to [results.map]. *)
Definition image (result : Result.t) : img :=
  let WIDTH : Z := 320%Z in
  let photoId := Result.get result "photo_id" in
  let photoUrl :=
    "https://unsplash.com/photos/" +:+ ToString photoId
      +:+ "/download?w=" +:+ pretty WIDTH in
  {| src := photoUrl; width := pretty WIDTH +:+ "px" |}.

(** One run of the component function.  [results.map] has no guard: with
    undefined results the render throws ([None]). *)
Definition render (a : state) (cell : option memo) : option (memo * view) :=
  let triggerSearch :=
    useCallback cell
      {| dep_query := query a; dep_sql := sql a; dep_apiKey := apiKey a;
         dep_collectionName := collectionName a |} in
  records ← results a;
  Some (triggerSearch,
        {| apiKey_value := apiKey a;
           collectionName_value := collectionName a;
           query_value := query a;
           sql_value := sql a;
           search_disabled :=
             loading a || not_ (apiKey a) || not_ (collectionName a);
           search_onClick := bound triggerSearch;
           loading_div := loading a;
           error_div := if truthy (error a) then error a else None;
           images := map image records |}).
End Render.

(** The page: the hooks, the [useCallback] cell, the screen ([None] once a
    render has thrown and React has taken the page down), the fetches in
    flight and the fetches made. *)
Record page : Type := {
  hooks : state;
  cell : memo;
  screen : option view;
  pending : list (Request.t * (settled Response.t → task unit));
  issued : list Request.t;
}.

Inductive event : Type :=
| ChangeApiKey (value : string)
| ChangeCollectionName (value : string)
| ChangeQuery (value : string)
| ChangeSql (value : string)
| ClickSearch
| Settle (i : nat) (r : settled Response.t).

Definition with_hooks (a : state) (p : page) : page := {|
  hooks := a; cell := cell p; screen := screen p; pending := pending p;
  issued := issued p;
|}.

(** A task runs up to its next [await] or its end. *)
Fixpoint run (t : task unit) (p : page) : page :=
  match t with
  | Return _ => p
  | Throw _ => p
  | Call u k => run k (with_hooks (set_state u (hooks p)) p)
  | Await rq k =>
      {| hooks := hooks p; cell := cell p; screen := screen p;
         pending := pending p ++ [(rq, k)];
         issued := issued p ++ [rq] |}
  end.

Section Page.
Context `{Host}.

(** React renders [App] again.  Every hook is read by the render, so a
    render after every handler shows the same as a render after every
    change. *)
Definition commit (p : page) : page :=
  match render (hooks p) (Some (cell p)) with
  | Some (m, v) =>
      {| hooks := hooks p; cell := m; screen := Some v;
         pending := pending p; issued := issued p |}
  | None =>
      {| hooks := hooks p; cell := cell p; screen := None;
         pending := pending p; issued := issued p |}
  end.

(** The page at its first render. *)
Definition start : page :=
  commit {| hooks := init;
            cell := useCallback None
                      {| dep_query := ""; dep_sql := ""; dep_apiKey := "";
                         dep_collectionName := "" |};
            screen := None; pending := []; issued := [] |}.

(** One event.  Nothing can be typed or clicked on a page React has taken
    down, and a setter called for it then has no effect.  The Search button
    is a native [<button>] here: a click on it runs nothing while it is
    [disabled]. *)
Definition step (p : page) (e : event) : page :=
  match screen p with
  | None => p
  | Some v =>
      match e with
      | ChangeApiKey value => commit (with_hooks (setApiKey value (hooks p)) p)
      | ChangeCollectionName value =>
          commit (with_hooks (setCollectionName value (hooks p)) p)
      | ChangeQuery value => commit (run (call (setQuery value)) p)
      | ChangeSql value => commit (run (call (setSql value)) p)
      | ClickSearch =>
          if search_disabled v then p
          else
            let f := search_onClick v in
            commit (run (triggerSearch (dep_apiKey f) (dep_collectionName f)
                           (dep_query f) (dep_sql f)) p)
      | Settle i r =>
          match pending p !! i with
          | Some (_, k) =>
              commit (run (k r)
                        {| hooks := hooks p; cell := cell p;
                           screen := screen p;
                           pending := delete i (pending p);
                           issued := issued p |})
          | None => p
          end
      end
  end.

Inductive reachable : page → Prop :=
| reachable_start : reachable start
| reachable_step p e : reachable p → reachable (step p e).

(** *** Invariants of the page *)

(** The four texts as the hooks hold them. *)
Definition current (a : state) : deps := {|
  dep_query := query a; dep_sql := sql a; dep_apiKey := apiKey a;
  dep_collectionName := collectionName a;
|}.

(** What a render shows of hooks whose results are [records]. *)
Definition view_of (a : state) (records : list Result.t) : view := {|
  apiKey_value := apiKey a;
  collectionName_value := collectionName a;
  query_value := query a;
  sql_value := sql a;
  search_disabled := loading a || not_ (apiKey a) || not_ (collectionName a);
  search_onClick := current a;
  loading_div := loading a;
  error_div := if truthy (error a) then error a else None;
  images := map image records;
|}.

(** The page is up: the screen and the stored closure are those of the
    hooks as they are. *)
Definition alive (p : page) : Prop :=
  ∃ records, results (hooks p) = Some records
    ∧ stored (cell p) = current (hooks p)
    ∧ bound (cell p) = current (hooks p)
    ∧ screen p = Some (view_of (hooks p) records).

(** At most one fetch is in flight, exactly while [loading] is set, and
    the rest of a [triggerSearch] call awaits it. *)
Definition flight_ok (p : page) : Prop :=
  (pending p = [] ∧ loading (hooks p) = false)
  ∨ (∃ rq k, pending p = [(rq, k)] ∧ loading (hooks p) = true
       ∧ ∀ r, k r = completion r).

(** The page is up with at most one search in flight, or a render has
    thrown over undefined results and nothing is in flight. *)
Definition invariant (p : page) : Prop :=
  (alive p ∧ flight_ok p)
  ∨ (screen p = None ∧ pending p = [] ∧ results (hooks p) = None).
End Page.
End Part000.

(** ** More of the example session *)

(** The page over an empty local storage, its settings drawer open. *)
Definition example_unset : system :=
  start (H := example_host) Part001 ∅.

(** A response whose body is an object without [results]. *)
Definition example_error_payload : settled Response.t :=
  fulfilled {| Response.json := fulfilled (Response.object {|
    QueryResponse.collection_id := "";
    QueryResponse.result_count := 0%float;
    QueryResponse.sql := JUndefined;
    QueryResponse.results := None;
  |}) |}.

(** A card that scrolls into view and is clicked. *)
Definition example_card_events : list ImageCard.event :=
  [ImageCard.Intersect false; ImageCard.Intersect true; ImageCard.ClickImage].

(** The first revision with both settings typed and a search in flight. *)
Definition example_part000 : Part000.page :=
  foldl (Part000.step (H := example_host)) (Part000.start (H := example_host))
    [Part000.ChangeApiKey "key"; Part000.ChangeCollectionName "photos";
     Part000.ChangeQuery "a road in the forest"; Part000.ClickSearch].

(** * Properties *)

Section Facts.
Context `{Host} (rev : revision).

(** ** [triggerSearch] *)

Lemma not_true (s : string) : not_ s = true ↔ s = "".
Proof. apply bool_decide_eq_true. Qed.

Lemma not_false (s : string) : not_ s = false ↔ s ≠ "".
Proof. apply bool_decide_eq_false. Qed.

Lemma guard_false (config : Config.t) :
  not_ (Config.apiKey config) || not_ (Config.collectionName config) = false
  ↔ configured config.
Proof. rewrite orb_false_iff, !not_false. reflexivity. Qed.

Lemma guard_true (config : Config.t) :
  not_ (Config.apiKey config) || not_ (Config.collectionName config) = true
  ↔ Config.apiKey config = "" ∨ Config.collectionName config = "".
Proof. rewrite orb_true_iff, !not_true. reflexivity. Qed.

(** With a setting missing, [triggerSearch] returns at once. *)
Lemma triggerSearch_returns (config : Config.t) (query sql : string) :
  Config.apiKey config = "" ∨ Config.collectionName config = "" →
  triggerSearch config query sql = Return tt.
Proof.
  intros Hempty. apply guard_true in Hempty.
  unfold triggerSearch. rewrite Hempty. reflexivity.
Qed.

(** With both settings, it sets [loading], clears [error], and awaits the
    fetch of the query built from the form; [completion] is what runs when
    the fetch settles. *)
Lemma triggerSearch_fetches (config : Config.t) (query sql : string) :
  configured config →
  ∃ k, triggerSearch config query sql
       = Call (setLoading true)
           (Call (setError None)
              (Await (search_request (form_query config query sql)) k))
       ∧ ∀ r, k r = completion r.
Proof.
  intros Hcfg. apply guard_false in Hcfg.
  unfold triggerSearch. rewrite Hcfg. eexists. split; [reflexivity|].
  intros [response|e]; unfold completion, search_outcome, search_promise;
    simpl; [|reflexivity].
  unfold json. destruct (Response.json response) as [[|data]|e]; reflexivity.
Qed.

(** ** Setters and renders *)

Lemma with_app_same (s : system) : with_app (app s) s = s.
Proof. destruct s; reflexivity. Qed.

Lemma set_state_same (u : setter) (a : AppState.t) :
  changes u a = false → set_state u a = a.
Proof.
  destruct a as [q sq r l e o so i], u as [v|v|v|v|v|v|v|f]; simpl;
    try (intros Heq%bool_decide_eq_false%dec_stable; congruence).
  destruct v, r; intros; congruence.
Qed.

Lemma flush_call (u : setter) (s : system) :
  flush rev (run (call u) s)
  = if changes u (app s) then commit rev (with_app (set_state u (app s)) s)
    else s.
Proof.
  unfold flush; simpl. rewrite orb_false_r.
  destruct (changes u (app s)) eqn:Hch; [reflexivity|].
  rewrite (set_state_same _ _ Hch). apply with_app_same.
Qed.

(** A task writes the hooks of [App] and the lists of fetches, nothing
    else. *)
Lemma run_frame (t : task unit) (s : system) :
  storage (run t s).1 = storage s
  ∧ config (run t s).1 = config s
  ∧ cell (run t s).1 = cell s
  ∧ screen (run t s).1 = screen s
  ∧ settings (run t s).1 = settings s.
Proof.
  revert s. induction t as [a|e|u k IH|rq k IH]; intros s; simpl; try done.
  specialize (IH (with_app (set_state u (app s)) s)).
  by destruct (run k _).
Qed.

(** When no setter changed a hook, the hooks are as they were. *)
Lemma run_clean (t : task unit) (s : system) :
  (run t s).2 = false → app (run t s).1 = app s.
Proof.
  revert s. induction t as [a|e|u k IH|rq k IH]; intros s; simpl; try done.
  specialize (IH (with_app (set_state u (app s)) s)).
  destruct (run k _) as [s' dirty]. simpl in *.
  intros [Hu Hdirty]%orb_false_iff. rewrite (IH Hdirty). simpl.
  by apply set_state_same.
Qed.

(** A render leaves the hooks, the ref, local storage and the fetches as
    they are. *)
Lemma flush_frame (r : system * bool) :
  app (flush rev r) = app r.1
  ∧ config (flush rev r) = config r.1
  ∧ storage (flush rev r) = storage r.1
  ∧ pending (flush rev r) = pending r.1
  ∧ issued (flush rev r) = issued r.1.
Proof. by destruct r as [s []]. Qed.

Lemma is_Some_if {A} (b : bool) (x : A) :
  is_Some (if b then Some x else None) ↔ b = true.
Proof. destruct b; split; done. Qed.

Lemma useCallback_deps (c : option App.memo) (f : App.callback)
    (d : string * string) : App.deps (App.useCallback c f d) = d.
Proof. destruct c as [m|]; simpl; [case_decide|]; done. Qed.

Lemma useCallback_wf (c : option App.memo) (d : string * string) :
  (∀ m, c = Some m → cell_wf m) →
  cell_wf (App.useCallback c
             {| App.bound_query := d.1; App.bound_sql := d.2 |} d).
Proof.
  intros Hwf. destruct c as [m|]; simpl; [case_decide|]; try done.
  by apply Hwf.
Qed.

Lemma useCallback_again (c : option App.memo) (f : App.callback)
    (d : string * string) :
  App.useCallback (Some (App.useCallback c f d)) f d = App.useCallback c f d.
Proof.
  unfold App.useCallback at 1. by rewrite useCallback_deps, decide_True.
Qed.

(** ** The rest of a [triggerSearch] call *)

Lemma completion_calls (r : settled Response.t) :
  completion r = Call (settle_setter r) (Call (setLoading false) (Return tt)).
Proof. unfold completion, settle_setter. by destruct (search_outcome r). Qed.

Lemma settle_setter_loading (r : settled Response.t) (a : AppState.t) :
  AppState.loading (set_state (settle_setter r) a) = AppState.loading a.
Proof. unfold settle_setter. by destruct (search_outcome r), a. Qed.

(** The outcome of the [try] block, by what the promise settled to. *)
Lemma search_outcome_rejected (r : settled Response.t) (err : Error) :
  search_promise r = rejected err → search_outcome r = rejected err.
Proof. unfold search_outcome. by intros ->. Qed.

Lemma search_outcome_null (r : settled Response.t) :
  search_promise r = fulfilled Response.null →
  search_outcome r = rejected {| message := TypeError_null "results" |}.
Proof. unfold search_outcome. by intros ->. Qed.

Lemma search_outcome_object (r : settled Response.t) (data : QueryResponse.t) :
  search_promise r = fulfilled (Response.object data) ↔
  search_outcome r = fulfilled data.
Proof.
  unfold search_outcome.
  destruct (search_promise r) as [[|data']|e]; split; congruence.
Qed.
End Facts.

Arguments App.useCallback : simpl never.
Arguments App.init : simpl never.

Section PageFacts.
Context `{Host} (rev : revision).

(** ** A render re-establishes the invariant *)

Lemma commit_invariant (s : system) : base s → invariant rev (commit rev s).
Proof.
  intros (Hcell & Hflight & Hissued & Hconfig & Hsettings).
  split; [split_and!|split_and!]; simpl; try done.
  - apply (useCallback_wf (Some (cell s)) (_, _)). by intros ? [= <-].
  - intros st Hst. simpl in Hst.
    destruct (AppState.isOpen (app s)); [|done].
    destruct (settings s) as [st0|] eqn:Hst0; simpl in Hst.
    + injection Hst as <-. by apply Hsettings.
    + by injection Hst as <-.
  - apply useCallback_deps.
  - exists (config s). unfold App.render. by rewrite useCallback_again.
  - destruct (AppState.isOpen (app s)); split; done.
Qed.

(** A handler keeps the invariant when the fetches it leaves in flight are
    awaited by the rest of a [triggerSearch] call and carry both
    settings: React renders again if a hook changed, and otherwise the
    screen is still that of the hooks. *)
Lemma invariant_flush (t : task unit) (s : system) :
  invariant rev s →
  flight_ok (run t s).1 → issued_ok (run t s).1 →
  invariant rev (flush rev (run t s)).
Proof.
  intros ((Hcell & _ & _ & Hconfig & Hsettings) & Hdeps & Hscreen & Hopen)
    Hflight Hissued.
  destruct (run_frame t s) as (Hst & Hcf & Hce & Hsc & Hse).
  assert (Hbase : base (run t s).1).
  { split_and!; try done.
    - by rewrite Hce.
    - unfold config_ok. by rewrite Hcf, Hst.
    - unfold settings_ok. by rewrite Hse, Hcf. }
  unfold flush. destruct (run t s).2 eqn:Hdirty; [by apply commit_invariant|].
  split; [done|]. unfold synced.
  by rewrite Hce, Hsc, Hse, (run_clean t s Hdirty).
Qed.

Lemma invariant_call (u : setter) (s : system) :
  invariant rev s → invariant rev (flush rev (run (call u) s)).
Proof. intros Hinv. apply invariant_flush; [done|apply Hinv..]. Qed.

(** ** What the screen shows between two events *)

Lemma screen_shows (s : system) :
  invariant rev s →
  ∃ c, screen s = (App.render rev c (app s) None).2.
Proof.
  intros ((Hcell & _) & Hdeps & (c & Hscreen) & _). exists c.
  rewrite Hscreen. unfold App.render; simpl. f_equal.
  unfold App.useCallback. rewrite decide_True by done.
  rewrite Hcell, Hdeps. reflexivity.
Qed.

(** The Search button holds the closure of the current [query] and [sql]. *)
Lemma screen_onClick (s : system) :
  invariant rev s →
  App.search_onClick (screen s)
  = {| App.bound_query := AppState.query (app s);
       App.bound_sql := AppState.sql (app s) |}.
Proof. intros (c & ->)%screen_shows. reflexivity. Qed.

(** While [loading] is set the Search button is rendered [disabled]. *)
Lemma screen_disabled (s : system) :
  invariant rev s →
  AppState.loading (app s) = true → App.search_disabled (screen s) = true.
Proof. intros (c & ->)%screen_shows Hl. simpl. by rewrite Hl. Qed.

(** ** The page at its first render *)

Lemma start_invariant (storage0 : gmap string string) :
  invariant rev (start rev storage0).
Proof.
  split; [split_and!|split_and!]; simpl; try done.
  - apply Forall_nil_2.
  - apply Forall_nil_2.
  - intros st Hst. cbn in Hst.
    destruct (AppState.isOpen _); by simplify_eq.
  - by exists (config (start rev storage0)).
  - apply is_Some_if.
Qed.

(** ** Each event keeps the invariant *)

(** A handler of [Settings] that leaves its inputs, the ref and local
    storage in agreement. *)
Lemma invariant_with_settings (s : system) (st : Settings.state)
    (c : Config.t) (ls : gmap string string) :
  invariant rev s →
  is_Some (settings s) →
  Config.apiKey c = nullish (localStorage.getItem ls API_KEY_KEY) "" →
  Config.collectionName c
  = nullish (localStorage.getItem ls COLLECTION_NAME_KEY) "" →
  Settings.apiKey st = Config.apiKey c →
  Settings.collectionName st = Config.collectionName c →
  invariant rev (with_settings st c ls s).
Proof.
  intros ((Hcell & Hflight & Hissued & _ & _) & Hdeps & Hscreen & Hopen)
    Hsome Hkey Hname Hstkey Hstname.
  split; [split_and!|split_and!]; try done.
  - intros st' [= <-]. done.
  - split; [intros _; by apply Hopen|by eexists].
Qed.

(** Closes the side conditions of [invariant_with_settings]. *)
Ltac settings_agree Hst Hsettings :=
  simpl; unfold localStorage.getItem, localStorage.setItem;
  rewrite ?lookup_insert_eq, ?lookup_insert_ne by done;
  first [ done | by apply Hsettings | by rewrite Hst ].

Lemma invariant_onChange_apiKey (s : system) (st : Settings.state)
    (value : string) :
  invariant rev s → settings s = Some st →
  invariant rev (step rev s (ChangeApiKey value)).
Proof.
  intros Hinv Hst. unfold step. rewrite Hst.
  pose proof Hinv as ((_ & _ & _ & (Hkey & Hname) & Hsettings) & _).
  apply invariant_with_settings; settings_agree Hst Hsettings.
Qed.

Lemma invariant_onChange_collectionName (s : system) (st : Settings.state)
    (value : string) :
  invariant rev s → settings s = Some st →
  invariant rev (step rev s (ChangeCollectionName value)).
Proof.
  intros Hinv Hst. unfold step. rewrite Hst.
  pose proof Hinv as ((_ & _ & _ & (Hkey & Hname) & Hsettings) & _).
  apply invariant_with_settings; settings_agree Hst Hsettings.
Qed.

Lemma invariant_handleClick (s : system) (st : Settings.state) :
  invariant rev s → settings s = Some st →
  invariant rev (step rev s ClickShow).
Proof.
  intros Hinv Hst. unfold step. rewrite Hst.
  pose proof Hinv as ((_ & _ & _ & (Hkey & Hname) & Hsettings) & _).
  apply invariant_with_settings; settings_agree Hst Hsettings.
Qed.

(** The controls only part_001 has. *)
Lemma only_part001 (r : revision) (u : setter) (s : system) :
  invariant rev s →
  invariant rev
    match r with
    | AppTsx => s
    | Part001 => flush rev (run (call u) s)
    end.
Proof. intros Hinv. destruct r; [done|by apply invariant_call]. Qed.

(** *** Clicking Search *)

(** The click is lost on a button that is rendered [disabled], where the
    library honours that. *)
Lemma click_blocked (s : system) :
  Button_honours_disabled && App.search_disabled (screen s) = true →
  step rev s ClickSearch = s.
Proof. intros Hblocked. unfold step. by rewrite Hblocked. Qed.

Lemma click_unconfigured (s : system) :
  Config.apiKey (config s) = "" ∨ Config.collectionName (config s) = "" →
  step rev s ClickSearch = s.
Proof.
  intros Hempty. unfold step.
  destruct (_ && _); [done|]. by rewrite triggerSearch_returns.
Qed.

(** Otherwise [triggerSearch] runs, over the [query] and the [sql] of the
    hooks. *)
Lemma click_runs (s : system) :
  invariant rev s →
  Button_honours_disabled && App.search_disabled (screen s) = false →
  step rev s ClickSearch
  = flush rev (run (triggerSearch (config s) (AppState.query (app s))
                      (AppState.sql (app s))) s).
Proof.
  intros Hinv Hfree. unfold step. by rewrite Hfree, (screen_onClick s Hinv).
Qed.

(** Over a configured ref one fetch of the form's query leaves, with
    [loading] set and [error] cleared, whether or not [loading] was set
    already. *)
Lemma click_fetches (s : system) :
  invariant rev s →
  Button_honours_disabled && App.search_disabled (screen s) = false →
  configured (config s) →
  let rq := search_request
              (form_query (config s) (AppState.query (app s))
                 (AppState.sql (app s))) in
  ∃ k, (∀ r, k r = completion r)
    ∧ app (step rev s ClickSearch) = searching (app s)
    ∧ pending (step rev s ClickSearch) = pending s ++ [(rq, k)]
    ∧ issued (step rev s ClickSearch) = issued s ++ [rq]
    ∧ config (step rev s ClickSearch) = config s
    ∧ storage (step rev s ClickSearch) = storage s.
Proof.
  intros Hinv Hfree Hcfg rq. rewrite (click_runs s Hinv Hfree).
  destruct (triggerSearch_fetches (config s) (AppState.query (app s))
              (AppState.sql (app s)) Hcfg) as (k & -> & Hk).
  exists k. split; [done|].
  match goal with |- context [flush rev ?r] =>
    destruct (flush_frame rev r) as (-> & -> & -> & -> & ->)
  end.
  done.
Qed.

Lemma invariant_click (s : system) :
  invariant rev s → invariant rev (step rev s ClickSearch).
Proof.
  intros Hinv.
  destruct (Button_honours_disabled && App.search_disabled (screen s))
    eqn:Hfree; [by rewrite click_blocked|].
  destruct (decide (Config.apiKey (config s) = "")) as [|Hkey];
    [rewrite click_unconfigured; auto|].
  destruct (decide (Config.collectionName (config s) = "")) as [|Hname];
    [rewrite click_unconfigured; auto|].
  rewrite (click_runs s Hinv Hfree).
  destruct (triggerSearch_fetches (config s) (AppState.query (app s))
              (AppState.sql (app s)) (conj Hkey Hname)) as (k & -> & Hk).
  pose proof Hinv as ((_ & Hflight & Hissued & _) & _).
  apply invariant_flush; [done|..]; simpl.
  - apply Forall_app. split; [done|]. by apply Forall_singleton.
  - apply Forall_app. split; [done|]. by apply Forall_singleton.
Qed.

(** *** A fetch settles *)

(** What awaits a fetch in flight is the rest of the call that made it. *)
Lemma pending_completion (s : system) (i : nat) (rq : Request.t)
    (k : settled Response.t → task unit) :
  invariant rev s →
  pending s !! i = Some (rq, k) →
  ∀ r, k r = completion r.
Proof.
  intros ((_ & Hflight & _) & _) Hi.
  apply (Forall_lookup_1 _ _ _ _ Hflight Hi).
Qed.

Lemma invariant_resume (s : system) (i : nat) :
  invariant rev s → invariant rev (resume i s).
Proof.
  intros ((Hcell & Hflight & Hissued & Hconfig & Hsettings) & Hsynced).
  split; [split_and!|]; try done. by apply Forall_delete.
Qed.

(** The [try] or the [catch] branch runs, then the [finally] block. *)
Lemma step_settle (s : system) (i : nat) (rq : Request.t)
    (k : settled Response.t → task unit) (r : settled Response.t) :
  invariant rev s →
  pending s !! i = Some (rq, k) →
  app (step rev s (Settle i r)) = settled_app r (app s)
  ∧ pending (step rev s (Settle i r)) = delete i (pending s)
  ∧ issued (step rev s (Settle i r)) = issued s
  ∧ config (step rev s (Settle i r)) = config s
  ∧ storage (step rev s (Settle i r)) = storage s.
Proof.
  intros Hinv Hi. unfold step. rewrite Hi.
  rewrite (pending_completion s i rq k Hinv Hi), completion_calls.
  match goal with |- context [flush rev ?r] =>
    destruct (flush_frame rev r) as (-> & -> & -> & -> & ->)
  end.
  done.
Qed.

Lemma invariant_settle (s : system) (i : nat) (r : settled Response.t) :
  invariant rev s → invariant rev (step rev s (Settle i r)).
Proof.
  intros Hinv. unfold step.
  destruct (pending s !! i) as [[rq k]|] eqn:Hi; [|done].
  rewrite (pending_completion s i rq k Hinv Hi), completion_calls.
  pose proof (invariant_resume s i Hinv) as Hinv'.
  apply invariant_flush; [done|apply Hinv'..].
Qed.

(** *** Every reachable page satisfies the invariant *)

Lemma invariant_step (s : system) (e : event) :
  invariant rev s → invariant rev (step rev s e).
Proof.
  intros Hinv. destruct e.
  - by apply invariant_call.
  - by apply invariant_call.
  - by apply invariant_call.
  - by apply invariant_call.
  - destruct (settings s) as [st|] eqn:Hst;
      [by eapply invariant_onChange_apiKey|by unfold step; rewrite Hst].
  - destruct (settings s) as [st|] eqn:Hst;
      [by eapply invariant_onChange_collectionName
      |by unfold step; rewrite Hst].
  - destruct (settings s) as [st|] eqn:Hst;
      [by eapply invariant_handleClick|by unfold step; rewrite Hst].
  - by apply (only_part001 rev).
  - by apply (only_part001 rev).
  - by apply (only_part001 rev).
  - by apply invariant_click.
  - by apply invariant_settle.
  - apply commit_invariant, Hinv.
Qed.

Lemma reachable_invariant (s : system) : reachable rev s → invariant rev s.
Proof.
  induction 1 as [storage0|s e _ IH];
    [apply start_invariant|by apply invariant_step].
Qed.

Lemma reachable_steps (s : system) (es : list event) :
  reachable rev s → reachable rev (steps rev s es).
Proof.
  revert s. induction es as [|e es IH]; intros s Hs; [done|].
  apply IH. by constructor.
Qed.
End PageFacts.

Section Frames.
Context `{Host} (rev : revision).

(** ** What an event can change *)

Lemma app_call (u : setter) (s : system) :
  app (flush rev (run (call u) s)) = set_state u (app s).
Proof.
  rewrite flush_call. destruct (changes u (app s)) eqn:Hch; [done|].
  by rewrite set_state_same.
Qed.

Lemma config_call (u : setter) (s : system) :
  config (flush rev (run (call u) s)) = config s.
Proof. rewrite flush_call. by destruct (changes u (app s)). Qed.

Lemma storage_call (u : setter) (s : system) :
  storage (flush rev (run (call u) s)) = storage s.
Proof. rewrite flush_call. by destruct (changes u (app s)). Qed.

Lemma pending_call (u : setter) (s : system) :
  pending (flush rev (run (call u) s)) = pending s.
Proof. rewrite flush_call. by destruct (changes u (app s)). Qed.

Lemma issued_call (u : setter) (s : system) :
  issued (flush rev (run (call u) s)) = issued s.
Proof. rewrite flush_call. by destruct (changes u (app s)). Qed.

Lemma issued_part001 (r : revision) (u : setter) (s : system) :
  issued match r with
         | AppTsx => s
         | Part001 => flush rev (run (call u) s)
         end
  = issued s.
Proof. destruct r; [done|apply issued_call]. Qed.

(** What a click on Search does to the hooks, whatever closure the button
    holds: nothing, or what [triggerSearch] does before its [await]. *)
Lemma app_click (s : system) :
  app (step rev s ClickSearch) = app s
  ∨ app (step rev s ClickSearch) = searching (app s).
Proof.
  unfold step. destruct (_ && _); [by left|].
  set (f := App.search_onClick (screen s)).
  destruct (decide (Config.apiKey (config s) = "")) as [|Hkey];
    [left; rewrite triggerSearch_returns; auto|].
  destruct (decide (Config.collectionName (config s) = "")) as [|Hname];
    [left; rewrite triggerSearch_returns; auto|].
  destruct (triggerSearch_fetches (config s) (App.bound_query f)
              (App.bound_sql f) (conj Hkey Hname)) as (k & -> & _).
  right.
  match goal with |- context [flush rev ?r] =>
    destruct (flush_frame rev r) as (-> & _)
  end.
  done.
Qed.

(** A click on Search does not write the results. *)
Lemma results_click (s : system) :
  AppState.results (app (step rev s ClickSearch)) = AppState.results (app s).
Proof. destruct (app_click s) as [->| ->]; [done|by destruct (app s)]. Qed.

(** Only a click on Search over a configured ref makes a fetch, and the
    fetch is the one of the form's query. *)
Lemma issued_step (s : system) (e : event) :
  invariant rev s →
  issued (step rev s e) = issued s
  ∨ (e = ClickSearch
     ∧ configured (config s)
     ∧ issued (step rev s e)
       = issued s
         ++ [search_request
               (form_query (config s) (AppState.query (app s))
                  (AppState.sql (app s)))]).
Proof.
  intros Hinv. destruct e;
    try (left; unfold step;
         first [ apply issued_call
               | by destruct (settings s)
               | apply (issued_part001 rev)
               | done ]).
  - destruct (Button_honours_disabled && App.search_disabled (screen s))
      eqn:Hfree; [left; by rewrite click_blocked|].
    destruct (decide (Config.apiKey (config s) = "")) as [|Hkey];
      [left; rewrite click_unconfigured; auto|].
    destruct (decide (Config.collectionName (config s) = "")) as [|Hname];
      [left; rewrite click_unconfigured; auto|].
    right. destruct (click_fetches rev s Hinv Hfree (conj Hkey Hname))
      as (k & _ & _ & _ & -> & _). done.
  - left. destruct (pending s !! i) as [[rq k]|] eqn:Hi;
      [|by unfold step; rewrite Hi].
    by destruct (step_settle rev s i rq k r Hinv Hi) as (_ & _ & -> & _).
Qed.

(** An event that is not the settling of a fetch does not bring an error
    about. *)
Lemma error_kept (s : system) (e : event) :
  (∀ i r, e ≠ Settle i r) →
  AppState.error (app s) = None →
  AppState.error (app (step rev s e)) = None.
Proof.
  intros Hsettle Herror.
  assert (Hcall : ∀ u, (∀ v, u ≠ setError v) →
            AppState.error (app (flush rev (run (call u) s))) = None).
  { intros u Hu. rewrite app_call.
    destruct (app s), u; simpl in *; try done. by destruct (Hu value). }
  destruct e; try (by unfold step; apply Hcall);
    try (by unfold step; destruct (settings s));
    try (by unfold step; destruct rev; [|apply Hcall]).
  - destruct (app_click s) as [->| ->]; [done|by destruct (app s)].
  - by destruct (Hsettle i r).
Qed.

Lemma error_kept_steps (s : system) (es : list event) :
  Forall (λ e, ∀ i r, e ≠ Settle i r) es →
  AppState.error (app s) = None →
  AppState.error (app (steps rev s es)) = None.
Proof.
  intros Hes. revert s.
  induction Hes as [|e es He _ IH]; intros s Herror; [done|].
  apply IH. by apply error_kept.
Qed.
End Frames.

Section Honoured.
Context `{Host} (rev : revision).
Hypothesis honoured : Button_honours_disabled = true.

(** ** One search at a time, where the button can be disabled *)

Lemma single_flight_step (s : system) (e : event) :
  invariant rev s → single_flight s → single_flight (step rev s e).
Proof.
  intros Hinv Hone.
  assert (Hcall : ∀ u, quiet u →
            single_flight (flush rev (run (call u) s))).
  { intros u Hu. unfold single_flight. rewrite pending_call, app_call.
    destruct Hone as [[Hp Hl]|(p & Hp & Hl & He)]; [left|right; exists p];
      split_and!; try done; by destruct (app s), u. }
  destruct e; try (by unfold step; apply Hcall);
    try (by unfold step; destruct (settings s));
    try (by unfold step; destruct rev; [|apply Hcall]).
  - destruct (AppState.loading (app s)) eqn:Hl.
    { rewrite click_blocked; [done|].
      by rewrite honoured, (screen_disabled rev s Hinv Hl). }
    destruct (Button_honours_disabled && App.search_disabled (screen s))
      eqn:Hfree; [by rewrite click_blocked|].
    destruct (decide (Config.apiKey (config s) = "")) as [|Hkey];
      [rewrite click_unconfigured; auto|].
    destruct (decide (Config.collectionName (config s) = "")) as [|Hname];
      [rewrite click_unconfigured; auto|].
    destruct (click_fetches rev s Hinv Hfree (conj Hkey Hname))
      as (k & _ & Happ & Hpending & _).
    destruct Hone as [[Hp _]|(? & _ & ? & _)]; [|congruence].
    right. eexists. rewrite Hpending, Hp, Happ.
    split_and!; [done|by destruct (app s)..].
  - destruct (pending s !! i) as [[rq k]|] eqn:Hi;
      [|by unfold step; rewrite Hi].
    destruct (step_settle rev s i rq k r Hinv Hi) as (Happ & Hpending & _).
    destruct Hone as [[Hp _]|(p & Hp & _)]; rewrite Hp in Hi; [done|].
    destruct i as [|i]; [|done].
    left. rewrite Hpending, Hp, Happ. split; [done|].
    unfold settled_app. by destruct (set_state (settle_setter r) (app s)).
Qed.

Lemma reachable_single_flight (s : system) :
  reachable rev s → single_flight s.
Proof.
  induction 1 as [storage0|s e Hs IH]; [by left|].
  apply single_flight_step; [by apply reachable_invariant|done].
Qed.

(** With a button that honours [disabled] (Chakra's [isDisabled], or the
    native button part_000 has) at most one search is in flight, and one
    is exactly while the loading flag is set. *)
Lemma single_search_where_disabled_is_honoured (s : system) :
  reachable rev s →
  length (pending s) ≤ 1
  ∧ (AppState.loading (app s) = true ↔ pending s ≠ []).
Proof.
  intros [[-> ->]|(p & -> & -> & _)]%reachable_single_flight; simpl;
    split; try lia; done.
Qed.
End Honoured.

(** * The claims *)

Section Claims.
Context `{Host} (rev : revision).

(** C1.  In every state of the page in which the API key or the collection
    name held by the ref is the empty string, triggering a search makes no
    fetch and leaves the whole page as it is (the results, the error and
    the loading flag among the rest), whether it comes through the Search
    button or is a direct call of [triggerSearch].  A fetch is only ever
    made from a state in which both are non-empty, and every fetch made
    carries a non-empty key and a non-empty collection name. *)
Theorem search_requires_settings (s : system) :
  reachable rev s →
  (Config.apiKey (config s) = "" ∨ Config.collectionName (config s) = "" →
     step rev s ClickSearch = s
     ∧ ∀ query sql, run (triggerSearch (config s) query sql) s = (s, false))
  ∧ (∀ e, issued (step rev s e) ≠ issued s →
       Config.apiKey (config s) ≠ "" ∧ Config.collectionName (config s) ≠ "")
  ∧ Forall (λ rq,
      SearchQuery.starpoint_api_key (Request.body rq) ≠ ""
      ∧ SearchQuery.starpoint_collection_name (Request.body rq) ≠ "")
      (issued s).
Proof.
  intros Hinv%reachable_invariant. split_and!.
  - intros Hempty. split; [by apply click_unconfigured|].
    intros query sql. by rewrite triggerSearch_returns.
  - intros e Hnew.
    destruct (issued_step rev s e Hinv) as [Hsame|(_ & Hcfg & _)]; done.
  - apply Hinv.
Qed.

(** C2, as amended.  What awaits a fetch in flight is the rest of the
    [triggerSearch] invocation that made it.  Whenever the search call of
    the invocation throws (the fetch rejects, or the body does not parse),
    the caught error's message becomes the error state and, as every
    message that is not the empty string, is put on screen.  The same
    happens when the call succeeds with the body [null]: reading its
    [results] throws inside the [try], and the message of that TypeError
    becomes the error state.  When the call succeeds with any other body
    the invocation writes no error: the error state is what it was.  It
    is null where the Search button honours its [disabled], so that no
    other search is in flight, and in any case if no fetch has settled
    since a click that started a search (which sets it to null). *)
Theorem search_error_state (s : system) (i : nat) (rq : Request.t)
    (k : settled Response.t → task unit) (r : settled Response.t) :
  reachable rev s →
  pending s !! i = Some (rq, k) →
  let s' := step rev s (Settle i r) in
  let shown (text : string) :=
    if decide (text = "") then None else Some text in
  (∀ r', k r' = completion r')
  ∧ match search_promise r with
    | rejected err =>
        AppState.error (app s') = Some (message err)
        ∧ App.error_div (screen s') = shown (message err)
    | fulfilled Response.null =>
        AppState.error (app s') = Some (TypeError_null "results")
        ∧ App.error_div (screen s') = shown (TypeError_null "results")
    | fulfilled (Response.object _) =>
        AppState.error (app s') = AppState.error (app s)
        ∧ (Button_honours_disabled = true → AppState.error (app s') = None)
        ∧ (∀ s0 es,
             reachable rev s0 →
             issued (step rev s0 ClickSearch) ≠ issued s0 →
             Forall (λ e, ∀ j r', e ≠ Settle j r') es →
             s = steps rev (step rev s0 ClickSearch) es →
             AppState.error (app s') = None)
    end.
Proof.
  intros Hreach Hi s' shown.
  pose proof (reachable_invariant rev s Hreach) as Hinv.
  assert (Hinv' : invariant rev s') by by apply invariant_step.
  assert (Happ : app s' = settled_app r (app s))
    by apply (step_settle rev s i rq k r Hinv Hi).
  destruct (screen_shows rev s' Hinv') as (c & Hscreen).
  split; [by apply (pending_completion rev s i rq k)|].
  rewrite Hscreen, Happ. unfold settled_app, settle_setter, shown.
  assert (Hshown : ∀ a text,
    AppState.error
      (set_state (setLoading false) (set_state (setError (Some text)) a))
    = Some text
    ∧ App.error_div
        (App.render rev c
           (set_state (setLoading false) (set_state (setError (Some text)) a))
           None).2
      = if decide (text = "") then None else Some text).
  { intros a text. destruct a; simpl. split; [done|]. unfold not_.
    by destruct (decide (text = "")) as [->|];
      [|rewrite bool_decide_eq_false_2]. }
  destruct (search_promise r) as [[|data]|err] eqn:Hr.
  - rewrite (search_outcome_null r Hr). apply Hshown.
  - rewrite (proj1 (search_outcome_object r data) Hr).
    assert (Hsame : AppState.error
              (set_state (setLoading false)
                 (set_state (setResults (QueryResponse.results data)) (app s)))
            = AppState.error (app s)) by by destruct (app s).
    split_and!; [done| |].
    { intros honoured. rewrite Hsame.
      destruct (reachable_single_flight rev honoured s Hreach)
        as [[Hp _]|(? & _ & _ & He)]; [by rewrite Hp in Hi|done]. }
    intros s0 es Hreach0 Hnew Hes ->. rewrite Hsame.
    apply error_kept_steps; [done|].
    destruct (app_click rev s0) as [Hidle| ->]; [|by destruct (app s0)].
    destruct (issued_step rev s0 ClickSearch (reachable_invariant rev s0 Hreach0))
      as [?|(_ & Hcfg & _)]; [done|].
    pose proof (reachable_invariant rev s0 Hreach0) as Hinv0.
    destruct (Button_honours_disabled && App.search_disabled (screen s0))
      eqn:Hfree; [by rewrite click_blocked in Hnew|].
    destruct (click_fetches rev s0 Hinv0 Hfree Hcfg) as (? & _ & -> & _).
    by destruct (app s0).
  - rewrite (search_outcome_rejected r err Hr). apply Hshown.
Qed.

(** C3.  On every search trigger the query sent to the backend is built
    from what the form holds at that moment: the API key and the collection
    name from the settings ref, the natural-language text from the query
    field and the SQL text from the SQL field, the last two being the
    optional members of [SearchQuery].  The two fields show the hook values;
    no event other than a click on Search sends anything, a click sends at
    most this one request, and it does send it when the button is enabled
    and both settings are filled in. *)
Theorem search_query_from_form (s : system) :
  reachable rev s →
  let data := {|
    SearchQuery.starpoint_api_key := Config.apiKey (config s);
    SearchQuery.starpoint_collection_name := Config.collectionName (config s);
    SearchQuery.query_to_embed := Some (App.query_value (screen s));
    SearchQuery.sql := Some (App.sql_value (screen s));
  |} in
  App.query_value (screen s) = AppState.query (app s)
  ∧ App.sql_value (screen s) = AppState.sql (app s)
  ∧ Request.body (search_request data) = data
  ∧ (∀ e, issued (step rev s e) = issued s
          ∨ (e = ClickSearch
             ∧ issued (step rev s e) = issued s ++ [search_request data]))
  ∧ (App.search_disabled (screen s) = false →
     Config.apiKey (config s) ≠ "" → Config.collectionName (config s) ≠ "" →
     issued (step rev s ClickSearch) = issued s ++ [search_request data]).
Proof.
  intros Hinv%reachable_invariant data. subst data.
  destruct (screen_shows rev s Hinv) as (c & Hscreen).
  assert (Hquery : App.query_value (screen s) = AppState.query (app s))
    by by rewrite Hscreen.
  assert (Hsql : App.sql_value (screen s) = AppState.sql (app s))
    by by rewrite Hscreen.
  rewrite Hquery, Hsql. split_and!; try done.
  - intros e. destruct (issued_step rev s e Hinv) as [?|(? & _ & ?)]; auto.
  - intros Hen Hkey Hname.
    destruct (click_fetches rev s Hinv) as (k & _ & _ & _ & -> & _);
      [by rewrite Hen, andb_false_r|done..].
Qed.

(** C4.  At startup the ref is loaded from the local-storage entries
    [api_key] and [collection_name].  A keystroke in either settings input
    writes the new text to the hook behind the input, to the ref and to the
    local-storage entry of that fixed key, so that all three hold it; and in
    every state of the page the ref, local storage and the inputs of the
    open settings drawer agree on both settings. *)
Theorem settings_persisted (s : system) :
  reachable rev s →
  (∀ storage0,
     config (start rev storage0)
     = {| Config.apiKey := default "" (storage0 !! "api_key");
          Config.collectionName := default "" (storage0 !! "collection_name") |})
  ∧ (∀ st value, settings s = Some st →
       let s' := step rev s (ChangeApiKey value) in
       storage s' !! "api_key" = Some value
       ∧ Config.apiKey (config s') = value
       ∧ ∃ st', settings s' = Some st'
           ∧ Settings.api_value (Settings.render st') = value)
  ∧ (∀ st value, settings s = Some st →
       let s' := step rev s (ChangeCollectionName value) in
       storage s' !! "collection_name" = Some value
       ∧ Config.collectionName (config s') = value
       ∧ ∃ st', settings s' = Some st'
           ∧ Settings.collection_value (Settings.render st') = value)
  ∧ Config.apiKey (config s) = default "" (storage s !! "api_key")
  ∧ Config.collectionName (config s)
    = default "" (storage s !! "collection_name")
  ∧ (∀ st, settings s = Some st →
       Settings.api_value (Settings.render st) = Config.apiKey (config s)
       ∧ Settings.collection_value (Settings.render st)
         = Config.collectionName (config s)).
Proof.
  intros ((_ & _ & _ & (Hkey & Hname) & Hsettings) & _)%reachable_invariant.
  split_and!; try done.
  - intros st value Hst s'. subst s'. unfold step. rewrite Hst. simpl.
    split_and!; [apply lookup_insert_eq|done|by eexists].
  - intros st value Hst s'. subst s'. unfold step. rewrite Hst. simpl.
    split_and!; [apply lookup_insert_eq|done|by eexists].
Qed.

(** C6 does not hold of App.tsx and part_001 where Chakra's [Button] does
    not honour the [disabled] it is given.  [triggerSearch] does set the
    loading flag before it makes the fetch, and whatever the fetch settles
    to, the last thing the call does is to reset the flag.  But the only
    thing that keeps a search from starting while the flag is set is that
    [disabled]: with both settings filled in, a click on Search starts one
    more fetch whatever the flag says, so that a click on a loading page
    leaves two fetches in flight; and when one of the fetches in flight
    settles, the flag is reset although the others are in flight still. *)
Theorem search_while_loading (s : system) :
  reachable rev s →
  Button_honours_disabled = false →
  Config.apiKey (config s) ≠ "" →
  Config.collectionName (config s) ≠ "" →
  let s' := step rev s ClickSearch in
  (∃ rq k,
     triggerSearch (config s) (AppState.query (app s)) (AppState.sql (app s))
     = Call (setLoading true) (Call (setError None) (Await rq k))
     ∧ ∀ r, ∃ u, k r = Call u (Call (setLoading false) (Return tt)))
  ∧ length (pending s') = S (length (pending s))
  ∧ issued s'
    = issued s
      ++ [search_request
            (form_query (config s) (AppState.query (app s))
               (AppState.sql (app s)))]
  ∧ AppState.loading (app s') = true
  ∧ (∀ i r, i < length (pending s') →
       AppState.loading (app (step rev s' (Settle i r))) = false
       ∧ length (pending (step rev s' (Settle i r))) = length (pending s)).
Proof.
  intros Hreach Hchakra Hkey Hname s'.
  pose proof (reachable_invariant rev s Hreach) as Hinv.
  assert (Hinv' : invariant rev s') by by apply invariant_step.
  destruct (click_fetches rev s Hinv) as (k & Hk & Happ & Hpending & Hissued & _);
    [by rewrite Hchakra|done|].
  fold s' in Happ, Hpending, Hissued.
  assert (Hlength : length (pending s') = S (length (pending s))).
  { rewrite Hpending, length_app. simpl. lia. }
  split_and!; try done.
  - destruct (triggerSearch_fetches (config s) (AppState.query (app s))
                (AppState.sql (app s)) (conj Hkey Hname)) as (k' & Hts & Hk').
    eexists _, k'. split; [exact Hts|].
    intros r. exists (settle_setter r). by rewrite Hk', completion_calls.
  - rewrite Happ. by destruct (app s).
  - intros i r Hi. apply lookup_lt_is_Some_2 in Hi as ([rq' k'] & Hi).
    destruct (step_settle rev s' i rq' k' r Hinv' Hi) as (-> & -> & _).
    split.
    + unfold settled_app. by destruct (set_state (settle_setter r) (app s')).
    + rewrite length_delete by by eexists. rewrite Hlength. lia.
Qed.

(** C7.  When a search succeeds the results state becomes exactly the
    sequence of result records of the response, and the grid then holds one
    image card per record, in the order of the records.  A record is a
    mapping from field names to values in which [__id] is a string and
    [__distance], when present, a number. *)
Theorem search_results_shown (s : system) (i : nat) (rq : Request.t)
    (k : settled Response.t → task unit) (r : settled Response.t)
    (response : QueryResponse.t) :
  reachable rev s →
  pending s !! i = Some (rq, k) →
  search_outcome r = fulfilled response →
  let s' := step rev s (Settle i r) in
  AppState.results (app s') = QueryResponse.results response
  ∧ (∀ records, QueryResponse.results response = Some records →
       ∃ cards, App.wrap (screen s') = Some cards
         ∧ length cards = length records
         ∧ ∀ j record, records !! j = Some record →
             cards !! j
             = Some (App.card rev (AppState.showInfo (app s)) record))
  ∧ (∀ record : Result.t,
       Result.get record "__id" = JString (Result.__id record)
       ∧ Result.get record "__distance"
         = match Result.__distance record with
           | Some distance => JNumber distance
           | None => JUndefined
           end).
Proof.
  intros Hreach Hi Hr s'.
  pose proof (reachable_invariant rev s Hreach) as Hinv.
  assert (Hinv' : invariant rev s') by by apply invariant_step.
  assert (Happ : app s' = settled_app r (app s))
    by apply (step_settle rev s i rq k r Hinv Hi).
  destruct (screen_shows rev s' Hinv') as (c & Hscreen).
  rewrite Hscreen, Happ. unfold settled_app, settle_setter. rewrite Hr.
  split_and!.
  - by destruct (app s).
  - intros records Hrecords. exists (map (App.card rev
      (AppState.showInfo (app s))) records).
    split_and!.
    + simpl. rewrite Hrecords. by destruct (app s).
    + apply length_map.
    + intros j record Hj. by rewrite list_lookup_fmap, Hj.
  - intros record. split; [done|].
    unfold Result.get. by destruct (Result.__distance record).
Qed.

(** C8.  When a search fails (its search call throws, or reading the
    results of what it returned does) the results state is left as it was
    and the grid shows the same cards: of the hooks only the error and the
    loading flag are written, and the ref and local storage are not
    touched.  The click that started the search did not change the results
    either. *)
Theorem failed_search_keeps_results (s : system) (i : nat) (rq : Request.t)
    (k : settled Response.t → task unit) (r : settled Response.t)
    (err : Error) :
  reachable rev s →
  pending s !! i = Some (rq, k) →
  search_outcome r = rejected err →
  let s' := step rev s (Settle i r) in
  AppState.results (app s') = AppState.results (app s)
  ∧ App.wrap (screen s') = App.wrap (screen s)
  ∧ app s'
    = set_state (setLoading false)
        (set_state (setError (Some (message err))) (app s))
  ∧ config s' = config s
  ∧ storage s' = storage s
  ∧ (∀ s0, reachable rev s0 →
       AppState.results (app (step rev s0 ClickSearch))
       = AppState.results (app s0)).
Proof.
  intros Hreach Hi Hr s'.
  pose proof (reachable_invariant rev s Hreach) as Hinv.
  assert (Hinv' : invariant rev s') by by apply invariant_step.
  destruct (step_settle rev s i rq k r Hinv Hi)
    as (Happ & _ & _ & Hconfig & Hstorage).
  fold s' in Happ, Hconfig, Hstorage.
  destruct (screen_shows rev s Hinv) as (c & Hscreen).
  destruct (screen_shows rev s' Hinv') as (c' & Hscreen').
  rewrite Hscreen, Hscreen', Happ. unfold settled_app, settle_setter.
  rewrite Hr. split_and!; try done; try by destruct (app s).
  intros s0 _. apply results_click.
Qed.

(** C9.  For every result record that has a [photo_id] field, the card
    made of it has the image URL
    ["https://unsplash.com/photos/" + photo_id + "/download?w=320"] built
    from the value stored in that field (spelt as a template literal
    spells it: a string as it is); the same value is the card's key and
    its heading, and the value stored in the record's [ai_description]
    field ([undefined] if there is none) is its description.  (part_001
    shows heading and description only while the image info is switched
    on.)  The grid on screen consists of exactly these cards. *)
Theorem card_of_record (showInfo : bool) (result : Result.t)
    (photo_id : jsval) :
  Result.fields result !! "photo_id" = Some photo_id →
  let card := App.card rev showInfo result in
  let ai_description :=
    default JUndefined (Result.fields result !! "ai_description") in
  ImageCard.photoUrl (App.props card)
  = "https://unsplash.com/photos/" +:+ ToString photo_id +:+ "/download?w=320"
  ∧ (∀ id, photo_id = JString id →
       ImageCard.photoUrl (App.props card)
       = "https://unsplash.com/photos/" +:+ id +:+ "/download?w=320")
  ∧ App.key card = photo_id
  ∧ ImageCard.photoId (App.props card) = photo_id
  ∧ ImageCard.description (App.props card) = ai_description
  ∧ (∀ description,
       Result.fields result !! "ai_description" = Some description →
       ImageCard.description (App.props card) = description)
  ∧ (∀ st,
       ImageCard.info (ImageCard.render rev (App.props card) st)
       = if match rev with AppTsx => true | Part001 => showInfo end
         then Some (photo_id, ai_description, JSON_stringify result)
         else None)
  ∧ (∀ s, reachable rev s →
       App.wrap (screen s)
       = map (App.card rev (AppState.showInfo (app s)))
           <$> AppState.results (app s)).
Proof.
  intros Hid card ai_description. subst card ai_description.
  unfold App.card, Result.get. simpl. rewrite Hid. simpl.
  split_and!; try done.
  - by intros id ->.
  - by intros description ->.
  - intros st. by destruct rev.
  - intros s Hinv%reachable_invariant.
    by destruct (screen_shows rev s Hinv) as (c & ->).
Qed.

(** C10.  At startup (part_001) the settings drawer is open if and only
    if the stored API key or the stored collection name is absent or the
    empty string; an absent entry is loaded into the ref as the empty
    string.  The drawer on screen and the mounted [Settings] follow the
    hook. *)
Theorem settings_drawer_at_startup (storage0 : gmap string string) :
  let s := start Part001 storage0 in
  (AppState.isOpen (app s) = true
   ↔ storage0 !! "api_key" = None ∨ storage0 !! "api_key" = Some ""
     ∨ storage0 !! "collection_name" = None
     ∨ storage0 !! "collection_name" = Some "")
  ∧ App.settings_drawer (screen s) = AppState.isOpen (app s)
  ∧ (is_Some (settings s) ↔ AppState.isOpen (app s) = true)
  ∧ Config.apiKey (config s)
    = match storage0 !! "api_key" with Some value => value | None => "" end
  ∧ Config.collectionName (config s)
    = match storage0 !! "collection_name" with
      | Some value => value
      | None => ""
      end.
Proof.
  intros s. subst s. split_and!; try done; [|apply is_Some_if].
  cbn. unfold App.init, is_undefined, localStorage.getItem, nullish,
    API_KEY_KEY, COLLECTION_NAME_KEY. simpl.
  rewrite orb_false_r, orb_true_iff, !bool_decide_eq_true.
  destruct (storage0 !! "api_key") as [key|],
    (storage0 !! "collection_name") as [name|]; simpl;
    intuition (simplify_eq; auto).
Qed.
End Claims.

(** In src/frontend/src/App.tsx the drawer starts closed whatever is
    stored. *)
Remark settings_drawer_closed_in_AppTsx `{Host}
    (storage0 : gmap string string) :
  AppState.isOpen (app (start AppTsx storage0)) = false.
Proof. reflexivity. Qed.

(** C5.  For every search request it receives, the proxy forwards the
    request's payload to the external vector-search API as it is, and what
    it returns is that API's response, unmodified. *)
Theorem proxy_returns_verbatim {Reply : Type}
    (external_api : SearchQuery.t → Reply) (payload : SearchQuery.t) :
  Proxy.forwarded (Proxy.search external_api payload) = payload
  ∧ Proxy.returned (Proxy.search external_api payload) = external_api payload.
Proof. split; reflexivity. Qed.

(** * Further properties of the page *)

Section Session.
Context `{Host} (rev : revision).

(** A render shows the hooks under the ref as it is then. *)
Lemma commit_screen (s : system) :
  screen (commit rev s)
  = (App.render rev (config (commit rev s)) (app (commit rev s))
       (Some (cell (commit rev s)))).2.
Proof. unfold commit, App.render; simpl. by rewrite useCallback_again. Qed.

(** ** The Search button while the settings drawer is closed *)

Lemma closed_fresh_flush (t : task unit) (s : system) :
  closed_fresh rev s → closed_fresh rev (flush rev (run t s)).
Proof.
  intros Hfresh. unfold flush.
  destruct (run t s).2 eqn:Hdirty; [intros _; apply commit_screen|].
  destruct (run_frame t s) as (_ & Hcf & Hce & Hsc & _).
  unfold closed_fresh. by rewrite Hcf, Hce, Hsc, (run_clean t s Hdirty).
Qed.

Lemma closed_fresh_part001 (r : revision) (t : task unit) (s : system) :
  closed_fresh rev s →
  closed_fresh rev
    match r with
    | AppTsx => s
    | Part001 => flush rev (run t s)
    end.
Proof. intros Hfresh. destruct r; [done|by apply closed_fresh_flush]. Qed.

Lemma closed_fresh_step (s : system) (e : event) :
  invariant rev s → closed_fresh rev s → closed_fresh rev (step rev s e).
Proof.
  intros Hinv Hfresh.
  assert (Hopen : ∀ st, settings s = Some st →
            AppState.isOpen (app s) = true).
  { intros st Hst. apply Hinv. by rewrite Hst. }
  assert (Hsettings : ∀ st st' c ls, settings s = Some st →
            closed_fresh rev (with_settings st' c ls s)).
  { intros st st' c ls Hst%Hopen Hclosed. simpl in Hclosed. congruence. }
  destruct e; unfold step; try (by apply closed_fresh_flush).
  - destruct (settings s) as [st|] eqn:Hst; [|done]. simpl.
    by eapply Hsettings.
  - destruct (settings s) as [st|] eqn:Hst; [|done]. simpl.
    by eapply Hsettings.
  - destruct (settings s) as [st|] eqn:Hst; [|done]. simpl.
    by eapply Hsettings.
  - by apply (closed_fresh_part001 rev).
  - by apply (closed_fresh_part001 rev).
  - by apply (closed_fresh_part001 rev).
  - destruct (_ && _); [done|by apply closed_fresh_flush].
  - destruct (pending s !! i) as [[rq k]|]; [|done].
    by apply (closed_fresh_flush _ (resume i s)).
  - intros _. apply commit_screen.
Qed.

Lemma reachable_closed_fresh (s : system) :
  reachable rev s → closed_fresh rev s.
Proof.
  induction 1 as [storage0|s e Hs IH].
  - by intros _.
  - apply closed_fresh_step; [by apply reachable_invariant|done].
Qed.

(** X1.  In every state of the page in which the settings drawer is closed,
    the Search button is disabled exactly when a search is loading or the
    API key or the collection name held by the ref is empty: the ref is only
    written behind the open drawer, and closing the drawer renders [App]. *)
Theorem search_button_when_drawer_closed (s : system) :
  reachable rev s →
  AppState.isOpen (app s) = false →
  (App.search_disabled (screen s) = true
   ↔ AppState.loading (app s) = true
     ∨ Config.apiKey (config s) = ""
     ∨ Config.collectionName (config s) = "")
  ∧ settings s = None.
Proof.
  intros Hreach Hclosed. split.
  - rewrite (reachable_closed_fresh s Hreach Hclosed). simpl.
    rewrite !orb_true_iff, !not_true. tauto.
  - pose proof (reachable_invariant rev s Hreach) as (_ & _ & _ & Hopen).
    destruct (settings s) eqn:Hst; [|done].
    rewrite Hclosed in Hopen. destruct Hopen as [Hopen _].
    discriminate Hopen. by eexists.
Qed.

(** X2.  Filling in both settings in the open drawer and closing it: the
    ref and local storage hold the two texts, [Settings] is unmounted, and
    the Search button is disabled exactly when a search is loading or one of
    the two texts is empty. *)
Theorem settings_then_close (s : system) (st : Settings.state)
    (key name : string) :
  reachable rev s →
  settings s = Some st →
  let s' :=
    steps rev s
      [ChangeApiKey key; ChangeCollectionName name; CloseSettings] in
  config s' = {| Config.apiKey := key; Config.collectionName := name |}
  ∧ storage s' !! "api_key" = Some key
  ∧ storage s' !! "collection_name" = Some name
  ∧ settings s' = None
  ∧ AppState.isOpen (app s') = false
  ∧ (App.search_disabled (screen s') = true
     ↔ AppState.loading (app s) = true ∨ key = "" ∨ name = "").
Proof.
  intros Hreach Hst s'.
  assert (Hreach' : reachable rev s') by by apply reachable_steps.
  assert (Hopen : AppState.isOpen (app s) = true).
  { apply (reachable_invariant rev s Hreach). by rewrite Hst. }
  subst s'. unfold steps in *. cbn [foldl] in *.
  set (s1 := step rev s (ChangeApiKey key)) in *.
  assert (Hs1 : s1 = with_settings
            (Settings.onChange_apiKey key st (config s) (storage s)).1.1
            (Settings.onChange_apiKey key st (config s) (storage s)).1.2
            (Settings.onChange_apiKey key st (config s) (storage s)).2 s).
  { subst s1. unfold step. by rewrite Hst. }
  set (s2 := step rev s1 (ChangeCollectionName name)) in *.
  assert (Hs2 : config s2
                = {| Config.apiKey := key; Config.collectionName := name |}
              ∧ storage s2 !! "api_key" = Some key
              ∧ storage s2 !! "collection_name" = Some name
              ∧ app s2 = app s).
  { subst s2. rewrite Hs1. unfold step; simpl.
    unfold localStorage.setItem, API_KEY_KEY, COLLECTION_NAME_KEY.
    by rewrite lookup_insert_eq, lookup_insert_ne, lookup_insert_eq. }
  destruct Hs2 as (Hc2 & Hk2 & Hn2 & Ha2).
  set (s3 := step rev s2 CloseSettings) in *.
  assert (Ha3 : app s3 = set_state (setIsOpen false) (app s)).
  { subst s3. unfold step. by rewrite app_call, Ha2. }
  assert (Hclosed : AppState.isOpen (app s3) = false).
  { rewrite Ha3. by destruct (app s). }
  assert (Hc3 : config s3 = config s2) by apply config_call.
  assert (Hl3 : storage s3 = storage s2) by apply storage_call.
  destruct (search_button_when_drawer_closed s3 Hreach' Hclosed)
    as (Hbutton & Hunmounted).
  rewrite Hbutton, Hc3, Hl3, Hc2, Ha3. simpl.
  split_and!; try done; by destruct (app s).
Qed.

(** ** [Settings] and the guard of [triggerSearch] *)

Lemma length_zero (x : string) : String.length x = 0 ↔ x = "".
Proof. by destruct x. Qed.

(** X3.  The form of the open settings drawer is flagged invalid exactly
    when [triggerSearch] would return without searching, and each of the two
    "is required" messages is shown exactly when its setting in the ref is
    empty: the [length === 0] tests of [Settings] and the [!] tests of
    [triggerSearch] agree on what the drawer and the ref share. *)
Theorem settings_form_flags_refusal (s : system) (st : Settings.state) :
  reachable rev s →
  settings s = Some st →
  let v := Settings.render st in
  (Settings.form_isInvalid v = true
   ↔ ∀ query sql, triggerSearch (config s) query sql = Return tt)
  ∧ (Settings.api_message v = Some "API Key is required"
     ↔ Config.apiKey (config s) = "")
  ∧ (Settings.api_message v = None ↔ Config.apiKey (config s) ≠ "")
  ∧ (Settings.collection_message v = Some "Collection Name is required"
     ↔ Config.collectionName (config s) = "")
  ∧ (Settings.collection_message v = None
     ↔ Config.collectionName (config s) ≠ "").
Proof.
  intros Hinv%reachable_invariant Hst v. subst v.
  destruct Hinv as ((_ & _ & _ & _ & Hsettings) & _).
  destruct (Hsettings st Hst) as (Hkey & Hname). simpl in Hkey, Hname.
  unfold Settings.render; simpl. rewrite Hkey, Hname. split_and!.
  - rewrite orb_true_iff, !bool_decide_eq_true, !length_zero. split.
    + intros Hempty query sql. by apply triggerSearch_returns.
    + intros Hret.
      destruct (decide (Config.apiKey (config s) = "")) as [|Hk]; [auto|].
      destruct (decide (Config.collectionName (config s) = "")) as [|Hn];
        [auto|].
      destruct (triggerSearch_fetches (config s) "" "" (conj Hk Hn))
        as (k & Hts & _).
      by rewrite Hret in Hts.
  - case_bool_decide as Hlen; rewrite length_zero in Hlen; split; done.
  - case_bool_decide as Hlen; rewrite length_zero in Hlen; split; done.
  - case_bool_decide as Hlen; rewrite length_zero in Hlen; split; done.
  - case_bool_decide as Hlen; rewrite length_zero in Hlen; split; done.
Qed.

(** ** Responses and the grid *)

(** X4.  A response whose body parses to an object without a [results]
    member (an error payload passed on by the backend) is a success to
    [triggerSearch]: the results hook becomes undefined, the grid is taken
    off the screen, the spinner goes away, and the error state and what is
    shown of it stay as they were.  A body that is the JSON value [null]
    is not: reading its [results] throws inside the [try], the message of
    the TypeError becomes the error state and is shown, and the results
    and the grid stay as they were. *)
Theorem response_without_results (s : system) (i : nat) (rq : Request.t)
    (k : settled Response.t → task unit) (r : settled Response.t) :
  reachable rev s →
  pending s !! i = Some (rq, k) →
  let s' := step rev s (Settle i r) in
  App.spinner (screen s') = false
  ∧ (∀ response,
       search_promise r = fulfilled (Response.object response) →
       QueryResponse.results response = None →
       AppState.results (app s') = None
       ∧ App.wrap (screen s') = None
       ∧ AppState.error (app s') = AppState.error (app s)
       ∧ App.error_div (screen s') = App.error_div (screen s))
  ∧ (search_promise r = fulfilled Response.null →
       AppState.results (app s') = AppState.results (app s)
       ∧ App.wrap (screen s') = App.wrap (screen s)
       ∧ AppState.error (app s') = Some (TypeError_null "results")
       ∧ App.error_div (screen s')
         = if decide (TypeError_null "results" = "") then None
           else Some (TypeError_null "results")).
Proof.
  intros Hreach Hi s'.
  pose proof (reachable_invariant rev s Hreach) as Hinv.
  assert (Hinv' : invariant rev s') by by apply invariant_step.
  assert (Happ : app s' = settled_app r (app s))
    by apply (step_settle rev s i rq k r Hinv Hi).
  destruct (screen_shows rev s Hinv) as (c & Hscreen).
  destruct (screen_shows rev s' Hinv') as (c' & Hscreen').
  rewrite Hscreen, Hscreen', Happ. unfold settled_app, settle_setter.
  split_and!.
  - by destruct (set_state _ (app s)).
  - intros response Hr%search_outcome_object Hnone. rewrite Hr, Hnone.
    by destruct (app s).
  - intros Hr%search_outcome_null. rewrite Hr.
    destruct (app s); simpl. split_and!; try done. unfold not_.
    by destruct (decide (TypeError_null "results" = "")) as [->|];
      [|rewrite bool_decide_eq_false_2].
Qed.

(** X5.  A record without a [photo_id] field, or with a null one, still
    gets a card: its key and its heading are [undefined] (or [null]), and
    the template string spells that word into the image URL. *)
Theorem card_without_photo_id (showInfo : bool) (result : Result.t) :
  let card := App.card rev showInfo result in
  let headed (value : jsval) :=
    App.key card = value
    ∧ ImageCard.photoId (App.props card) = value
    ∧ ∀ st heading text extra,
        ImageCard.info (ImageCard.render rev (App.props card) st)
        = Some (heading, text, extra) →
        heading = value in
  (Result.fields result !! "photo_id" = None →
     headed JUndefined
     ∧ ImageCard.photoUrl (App.props card)
       = "https://unsplash.com/photos/undefined/download?w=320")
  ∧ (Result.fields result !! "photo_id" = Some JNull →
     headed JNull
     ∧ ImageCard.photoUrl (App.props card)
       = "https://unsplash.com/photos/null/download?w=320")
  ∧ (Result.fields result !! "ai_description" = None →
     ImageCard.description (App.props card) = JUndefined).
Proof.
  intros card headed. subst card headed.
  unfold App.card, Result.get, ImageCard.render. simpl.
  split_and!; intros ->; simpl; split_and?; try done;
    intros st heading text extra; destruct rev, showInfo; simpl; congruence.
Qed.
End Session.

Section Part001Session.
Context `{Host}.

(** X6.  The image-info button of part_001 flips [showInfo]: its label
    and the info body of every card on screen follow the new value, the
    results are not touched, and a second click restores the old value. *)
Theorem toggle_image_info (s : system) :
  reachable Part001 s →
  let s' := step Part001 s ClickShowInfo in
  AppState.showInfo (app s') = negb (AppState.showInfo (app s))
  ∧ App.info_button (screen s')
    = Some (if AppState.showInfo (app s') then "Hide Image Info"
            else "Show Image Info")
  ∧ AppState.results (app s') = AppState.results (app s)
  ∧ (∀ cards card st,
       App.wrap (screen s') = Some cards → card ∈ cards →
       (is_Some (ImageCard.info (ImageCard.render Part001 (App.props card) st))
        ↔ AppState.showInfo (app s') = true))
  ∧ AppState.showInfo (app (step Part001 s' ClickShowInfo))
    = AppState.showInfo (app s).
Proof.
  intros Hreach s'.
  assert (Hreach' : reachable Part001 s') by by constructor.
  assert (Happ : app s' = set_state (setShowInfo negb) (app s))
    by apply app_call.
  destruct (screen_shows Part001 s' (reachable_invariant _ _ Hreach'))
    as (c & Hscreen).
  rewrite Hscreen. unfold step at 1. rewrite app_call, Happ.
  split_and!; try by destruct (app s) as [? ? ? ? ? ? ? []].
  intros cards card st Hcards Hcard. simpl in Hcards.
  destruct (AppState.results _) as [records|]; [|done].
  injection Hcards as <-. apply list_elem_of_fmap in Hcard as (record & -> & _).
  simpl. destruct (AppState.showInfo _); simpl; split; done.
Qed.
End Part001Session.

Section Persistence.
Context `{Host} (rev : revision).

(** X7.  Reloading the page restores the settings: whatever happened
    since the page was opened, a page started over the local storage of now
    begins with the ref as it is now, with the Search button disabled
    exactly when one of the two settings is empty, and (part_001) with the
    settings drawer open exactly then. *)
Theorem reload_restores_settings (s : system) :
  reachable rev s →
  config (start rev (storage s)) = config s
  ∧ (App.search_disabled (screen (start rev (storage s))) = true
     ↔ Config.apiKey (config s) = "" ∨ Config.collectionName (config s) = "")
  ∧ (AppState.isOpen (app (start Part001 (storage s))) = true
     ↔ Config.apiKey (config s) = "" ∨ Config.collectionName (config s) = "").
Proof.
  intros ((_ & _ & _ & (Hkey & Hname) & _) & _)%reachable_invariant.
  assert (Hconfig : config (start rev (storage s)) = config s).
  { destruct (config s) as [key name]. simpl in *. by rewrite Hkey, Hname. }
  split_and!; [done|..].
  - change (App.search_disabled (screen (start rev (storage s))))
      with (false || not_ (Config.apiKey (config (start rev (storage s))))
            || not_ (Config.collectionName (config (start rev (storage s))))).
    rewrite Hconfig. simpl. by rewrite orb_true_iff, !not_true.
  - change (AppState.isOpen (app (start Part001 (storage s))))
      with (false
            || bool_decide (Config.apiKey (config (start rev (storage s))) = "")
            || false
            || bool_decide
                 (Config.collectionName (config (start rev (storage s)))
                  = "")).
    rewrite Hconfig. simpl.
    by rewrite orb_false_r, orb_true_iff, !bool_decide_eq_true.
Qed.

(** X8.  Keystrokes in the open settings drawer compose as writes do: a
    second keystroke in the same input overwrites the first, and keystrokes
    in the two inputs commute.  The whole page (hooks, ref and local
    storage) is the same either way. *)
Theorem settings_keystrokes_compose (s : system) (st : Settings.state)
    (v w : string) :
  settings s = Some st →
  step rev (step rev s (ChangeApiKey v)) (ChangeApiKey w)
  = step rev s (ChangeApiKey w)
  ∧ step rev (step rev s (ChangeCollectionName v)) (ChangeCollectionName w)
    = step rev s (ChangeCollectionName w)
  ∧ step rev (step rev s (ChangeApiKey v)) (ChangeCollectionName w)
    = step rev (step rev s (ChangeCollectionName w)) (ChangeApiKey v).
Proof.
  intros Hst. unfold step. rewrite Hst. simpl.
  unfold with_settings, localStorage.setItem; simpl.
  split_and!; f_equal.
  - apply insert_insert_eq.
  - apply insert_insert_eq.
  - by apply insert_insert_ne.
Qed.

(** X9.  Starting a search (an enabled Search button over a ref with both
    settings) clears the error of the previous search at once and shows the
    spinner, with the button disabled, while the results of the previous
    search stay on screen until the new ones arrive. *)
Theorem search_start (s : system) :
  reachable rev s →
  App.search_disabled (screen s) = false →
  Config.apiKey (config s) ≠ "" →
  Config.collectionName (config s) ≠ "" →
  let s' := step rev s ClickSearch in
  AppState.error (app s') = None
  ∧ App.error_div (screen s') = None
  ∧ App.spinner (screen s') = true
  ∧ App.search_disabled (screen s') = true
  ∧ AppState.results (app s') = AppState.results (app s)
  ∧ App.wrap (screen s') = App.wrap (screen s).
Proof.
  intros Hreach Hen Hkey Hname s'.
  pose proof (reachable_invariant rev s Hreach) as Hinv.
  assert (Hinv' : invariant rev s') by by apply invariant_step.
  destruct (click_fetches rev s Hinv) as (k & _ & Happ & _);
    [by rewrite Hen, andb_false_r|done|].
  fold s' in Happ.
  destruct (screen_shows rev s Hinv) as (c & Hscreen).
  destruct (screen_shows rev s' Hinv') as (c' & Hscreen').
  rewrite Hscreen, Hscreen', Happ. simpl. by destruct (app s).
Qed.

(** X10.  Only a click on Search and the settling of a fetch write the
    results, the error or the loading flag, start a fetch or end one:
    typing in the form or in the settings, opening and closing the drawers,
    toggling the image info and a render leave all of these as they are. *)
Theorem only_searches_write_results (s : system) (e : event) :
  e ≠ ClickSearch →
  (∀ i r, e ≠ Settle i r) →
  AppState.results (app (step rev s e)) = AppState.results (app s)
  ∧ AppState.error (app (step rev s e)) = AppState.error (app s)
  ∧ AppState.loading (app (step rev s e)) = AppState.loading (app s)
  ∧ pending (step rev s e) = pending s
  ∧ issued (step rev s e) = issued s.
Proof.
  intros Hclick Hsettle.
  assert (Hcall : ∀ u, quiet u →
    AppState.results (app (flush rev (run (call u) s)))
    = AppState.results (app s)
    ∧ AppState.error (app (flush rev (run (call u) s)))
      = AppState.error (app s)
    ∧ AppState.loading (app (flush rev (run (call u) s)))
      = AppState.loading (app s)
    ∧ pending (flush rev (run (call u) s)) = pending s
    ∧ issued (flush rev (run (call u) s)) = issued s).
  { intros u Hu. rewrite app_call, pending_call, issued_call.
    by destruct (app s), u. }
  destruct e; unfold step; try (by apply Hcall);
    try (by destruct (settings s));
    try (destruct rev; [done|by apply Hcall]); try done.
  by destruct (Hsettle i r).
Qed.
End Persistence.

Section Composition.
Context `{Host} (rev : revision).

(** X12.  Typing a query and an SQL filter and clicking Search, on a page
    whose drawer is closed, that is not loading and whose ref holds both
    settings, sends exactly one request, carrying the two settings and the
    two texts just typed; the query field and the SQL editor show them, and
    the page is loading. *)
Theorem type_then_search (s : system) (text filter : string) :
  reachable rev s →
  AppState.isOpen (app s) = false →
  AppState.loading (app s) = false →
  Config.apiKey (config s) ≠ "" →
  Config.collectionName (config s) ≠ "" →
  let s' :=
    steps rev s
      [ChangeQuery text; SqlEditor.handleChange ChangeSql filter;
       ClickSearch] in
  issued s'
  = issued s
    ++ [search_request {|
          SearchQuery.starpoint_api_key := Config.apiKey (config s);
          SearchQuery.starpoint_collection_name :=
            Config.collectionName (config s);
          SearchQuery.query_to_embed := Some text;
          SearchQuery.sql := Some filter;
        |}]
  ∧ App.query_value (screen s') = text
  ∧ (∀ dark_mode,
       SqlEditor.value (SqlEditor.render dark_mode (App.sql_value (screen s')))
       = filter)
  ∧ AppState.loading (app s') = true.
Proof.
  intros Hreach Hclosed Hidle Hkey Hname s'.
  assert (Hreach' : reachable rev s') by by apply reachable_steps.
  subst s'. unfold steps, SqlEditor.handleChange in *. cbn [foldl] in *.
  set (s1 := step rev s (ChangeQuery text)) in *.
  set (s2 := step rev s1 (ChangeSql filter)) in *.
  assert (Hreach2 : reachable rev s2) by by do 2 constructor.
  assert (Happ : app s2 = set_state (setSql filter)
                            (set_state (setQuery text) (app s))).
  { subst s2 s1. unfold step. by rewrite !app_call. }
  assert (Hconfig : config s2 = config s).
  { subst s2 s1. unfold step. by rewrite !config_call. }
  assert (Hissued : issued s2 = issued s).
  { subst s2 s1. unfold step. by rewrite !issued_call. }
  assert (Hclosed2 : AppState.isOpen (app s2) = false).
  { rewrite Happ. by destruct (app s). }
  assert (Hidle2 : AppState.loading (app s2) = false).
  { rewrite Happ. by destruct (app s). }
  pose proof (reachable_invariant rev s2 Hreach2) as Hinv2.
  assert (Hen : App.search_disabled (screen s2) = false).
  { destruct (search_button_when_drawer_closed rev s2 Hreach2 Hclosed2)
      as (Hbutton & _).
    destruct (App.search_disabled (screen s2)); [|done].
    destruct Hbutton as [Hbutton _].
    destruct (Hbutton eq_refl) as [?|[?|?]]; congruence. }
  destruct (click_fetches rev s2 Hinv2) as (k & _ & Happ3 & _ & Hissued3 & _);
    [by rewrite Hen, andb_false_r|by rewrite Hconfig|].
  destruct (screen_shows rev _ (reachable_invariant rev _ Hreach'))
    as (c & Hscreen).
  rewrite Hscreen, Hissued3, Happ3, Hissued, Hconfig, Happ. simpl.
  by destruct (app s).
Qed.

(** X13.  Closing the settings drawer and opening it again mounts
    [Settings] afresh: the two inputs show what the ref holds, and the API
    key is masked again, whatever the Show/Hide button had been left at. *)
Theorem reopened_settings (s : system) :
  reachable rev s →
  let s' := steps rev s [CloseSettings; ClickSettings] in
  settings s' = Some (Settings.mount (config s))
  ∧ config s' = config s
  ∧ storage s' = storage s
  ∧ ∃ st, settings s' = Some st
      ∧ Settings.api_value (Settings.render st) = Config.apiKey (config s)
      ∧ Settings.collection_value (Settings.render st)
        = Config.collectionName (config s)
      ∧ Settings.api_type (Settings.render st) = "password"
      ∧ Settings.show_label (Settings.render st) = "Show".
Proof.
  intros Hreach s'. subst s'. unfold steps. cbn [foldl].
  set (s1 := step rev s CloseSettings).
  assert (Hreach1 : reachable rev s1) by by constructor.
  assert (Happ : app s1 = set_state (setIsOpen false) (app s))
    by apply app_call.
  assert (Hclosed : AppState.isOpen (app s1) = false).
  { rewrite Happ. by destruct (app s). }
  assert (Hconfig : config s1 = config s) by apply config_call.
  assert (Hstorage : storage s1 = storage s) by apply storage_call.
  destruct (search_button_when_drawer_closed rev s1 Hreach1 Hclosed)
    as (_ & Hnone).
  assert (Hs2 : step rev s1 ClickSettings
                = commit rev (with_app (set_state (setIsOpen true) (app s1)) s1)).
  { unfold step. rewrite flush_call. simpl. by rewrite Hclosed. }
  rewrite Hs2. simpl. rewrite Hnone, Hconfig, Hstorage.
  assert (Hopen : AppState.isOpen (set_state (setIsOpen true) (app s1)) = true)
    by by destruct (app s1).
  rewrite Hopen. simpl. split_and!; try done. by eexists.
Qed.
End Composition.

Section Cards.

(** X11.  However a card is used, its image is loaded only after the
    observer has reported it in view, is loaded once and never unloaded
    (the observer has stopped by then), and the modal is only ever open
    over a loaded image. *)
Theorem card_lifecycle (es : list ImageCard.event) :
  let c := foldl ImageCard.step ImageCard.mount es in
  (ImageCard.loadArt (ImageCard.hooks c) = true →
     ImageCard.Intersect true ∈ es ∧ ImageCard.observing c = false)
  ∧ (ImageCard.isOpen (ImageCard.hooks c) = true →
     ImageCard.loadArt (ImageCard.hooks c) = true)
  ∧ (∀ e, ImageCard.loadArt (ImageCard.hooks c) = true →
          ImageCard.loadArt (ImageCard.hooks (ImageCard.step c e)) = true)
  ∧ (∀ rev p,
       is_Some (ImageCard.modal_src (ImageCard.render rev p (ImageCard.hooks c)))
       → ImageCard.image_src (ImageCard.render rev p (ImageCard.hooks c))
         = Some (ImageCard.photoUrl p)).
Proof.
  intros c. subst c.
  assert (Hinv :
    let c := foldl ImageCard.step ImageCard.mount es in
    (ImageCard.loadArt (ImageCard.hooks c) = true →
       ImageCard.Intersect true ∈ es ∧ ImageCard.observing c = false)
    ∧ (ImageCard.isOpen (ImageCard.hooks c) = true →
       ImageCard.loadArt (ImageCard.hooks c) = true)).
  { induction es as [|e es' IH] using rev_ind; [done|].
    rewrite foldl_app. simpl in *.
    destruct (foldl ImageCard.step ImageCard.mount es') as [[o l] b].
    destruct IH as (Hl & Ho). simpl in *.
    setoid_rewrite elem_of_app. setoid_rewrite list_elem_of_singleton.
    destruct e as [[]| | |], b, l, o; simpl in *;
      intuition (auto; congruence). }
  destruct Hinv as (Hl & Ho). split_and!; [done..| |].
  - intros e Hload. destruct (Hl Hload) as (_ & Hb).
    destruct (foldl ImageCard.step ImageCard.mount es) as [[o l] b].
    simpl in *. subst. by destruct e as [[]| | |], o.
  - intros rev p. unfold ImageCard.render; simpl.
    destruct (ImageCard.isOpen _) eqn:Hopen; [|by intros [? [=]]].
    by rewrite (Ho eq_refl).
Qed.
End Cards.

(** * Properties of the first revision *)

Section Part000Facts.
Context `{Host}.

(** Moving the two settings from hooks to a ref did not change
    [triggerSearch]. *)
Lemma part000_triggerSearch (apiKey collectionName query sql : string) :
  Part000.triggerSearch apiKey collectionName query sql
  = triggerSearch
      {| Config.apiKey := apiKey; Config.collectionName := collectionName |}
      query sql.
Proof. reflexivity. Qed.

Lemma part000_commit_alive (p : Part000.page) (records : list Result.t) :
  Part000.bound (Part000.cell p) = Part000.stored (Part000.cell p) →
  Part000.results (Part000.hooks p) = Some records →
  Part000.alive (Part000.commit p)
  ∧ Part000.hooks (Part000.commit p) = Part000.hooks p
  ∧ Part000.pending (Part000.commit p) = Part000.pending p
  ∧ Part000.issued (Part000.commit p) = Part000.issued p.
Proof.
  intros Hwf Hrecords. unfold Part000.commit, Part000.render.
  rewrite Hrecords. simpl. split_and!; try done.
  exists records. unfold Part000.useCallback.
  fold (Part000.current (Part000.hooks p)).
  case_decide as Hdeps; simpl; split_and!; try done;
    [congruence|unfold Part000.view_of; by rewrite Hwf, Hdeps].
Qed.

Lemma part000_commit_down (p : Part000.page) :
  Part000.results (Part000.hooks p) = None →
  Part000.screen (Part000.commit p) = None
  ∧ Part000.hooks (Part000.commit p) = Part000.hooks p
  ∧ Part000.pending (Part000.commit p) = Part000.pending p
  ∧ Part000.issued (Part000.commit p) = Part000.issued p.
Proof.
  intros Hnone. unfold Part000.commit, Part000.render. by rewrite Hnone.
Qed.

Lemma part000_alive_wf (p : Part000.page) :
  Part000.alive p →
  Part000.bound (Part000.cell p) = Part000.stored (Part000.cell p).
Proof. intros (? & _ & -> & -> & _). done. Qed.

(** A handler that writes none of [results], [loading] and the fetches. *)
Lemma part000_invariant_input (p : Part000.page) (a : Part000.state) :
  Part000.alive p → Part000.flight_ok p →
  Part000.results a = Part000.results (Part000.hooks p) →
  Part000.loading a = Part000.loading (Part000.hooks p) →
  Part000.invariant (Part000.commit (Part000.with_hooks a p)).
Proof.
  intros Halive Hflight Hres Hload.
  pose proof (part000_alive_wf p Halive) as Hwf.
  destruct Halive as (records & Hrecords & _).
  destruct (part000_commit_alive (Part000.with_hooks a p) records)
    as (Halive' & Hh & Hp & _); [done|by simpl; rewrite Hres|].
  left. split; [done|]. unfold Part000.flight_ok in *.
  rewrite Hh, Hp. simpl. by rewrite Hload.
Qed.

(** What an enabled Search button does. *)
Lemma part000_click (p : Part000.page) (v : Part000.view) :
  Part000.alive p → Part000.flight_ok p →
  Part000.screen p = Some v →
  Part000.search_disabled v = false →
  ∃ k, (∀ r, k r = completion r)
    ∧ Part000.step p Part000.ClickSearch
      = Part000.commit
          {| Part000.hooks :=
               Part000.set_state (setError None)
                 (Part000.set_state (setLoading true) (Part000.hooks p));
             Part000.cell := Part000.cell p;
             Part000.screen := Part000.screen p;
             Part000.pending :=
               [(search_request
                   (form_query
                      {| Config.apiKey := Part000.apiKey (Part000.hooks p);
                         Config.collectionName :=
                           Part000.collectionName (Part000.hooks p) |}
                      (Part000.query (Part000.hooks p))
                      (Part000.sql (Part000.hooks p))), k)];
             Part000.issued :=
               Part000.issued p
               ++ [search_request
                     (form_query
                        {| Config.apiKey := Part000.apiKey (Part000.hooks p);
                           Config.collectionName :=
                             Part000.collectionName (Part000.hooks p) |}
                        (Part000.query (Part000.hooks p))
                        (Part000.sql (Part000.hooks p)))] |}.
Proof.
  intros (records & _ & _ & _ & Hscreen) Hflight Hv Hen.
  rewrite Hscreen in Hv. injection Hv as <-. simpl in Hen.
  apply orb_false_iff in Hen as (Hen & Hname).
  apply orb_false_iff in Hen as (Hload & Hkey).
  apply not_false in Hname, Hkey.
  destruct Hflight as [[Hp _]|(? & ? & _ & ? & _)]; [|congruence].
  destruct (triggerSearch_fetches
              {| Config.apiKey := Part000.apiKey (Part000.hooks p);
                 Config.collectionName :=
                   Part000.collectionName (Part000.hooks p) |}
              (Part000.query (Part000.hooks p))
              (Part000.sql (Part000.hooks p)) (conj Hkey Hname))
    as (k & Hts & Hk).
  exists k. split; [done|]. unfold Part000.step. rewrite Hscreen. simpl.
  rewrite Hload, (proj2 (not_false _) Hkey), (proj2 (not_false _) Hname).
  simpl. rewrite part000_triggerSearch, Hts. simpl. by rewrite Hp.
Qed.

(** What the settling of the fetch in flight does. *)
Lemma part000_settle (p : Part000.page) (i : nat) (rq : Request.t)
    (k : settled Response.t → task unit) (r : settled Response.t) :
  Part000.invariant p →
  Part000.pending p !! i = Some (rq, k) →
  Part000.alive p
  ∧ Part000.loading (Part000.hooks p) = true
  ∧ Part000.step p (Part000.Settle i r)
    = Part000.commit
        {| Part000.hooks :=
             Part000.set_state (setLoading false)
               (Part000.set_state (settle_setter r) (Part000.hooks p));
           Part000.cell := Part000.cell p;
           Part000.screen := Part000.screen p;
           Part000.pending := [];
           Part000.issued := Part000.issued p |}.
Proof.
  intros [(Halive & Hflight)|(_ & Hp & _)] Hi; [|by rewrite Hp in Hi].
  destruct Hflight as [[Hp _]|(rq' & k' & Hp & Hl & Hk)];
    rewrite Hp in Hi; [done|].
  destruct i as [|i]; [|done]. simplify_eq/=.
  split_and!; try done.
  destruct Halive as (records & _ & _ & _ & Hscreen).
  unfold Part000.step. rewrite Hscreen, Hp. simpl.
  by rewrite Hk, completion_calls.
Qed.

Lemma part000_invariant_step (p : Part000.page) (e : Part000.event) :
  Part000.invariant p → Part000.invariant (Part000.step p e).
Proof.
  intros Hinv.
  destruct (Part000.screen p) as [v|] eqn:Hv;
    [|by unfold Part000.step; rewrite Hv].
  pose proof Hinv as [(Halive & Hflight)|(Hdown & _)]; [|congruence].
  destruct e.
  - unfold Part000.step. rewrite Hv.
    by apply part000_invariant_input.
  - unfold Part000.step. rewrite Hv.
    by apply part000_invariant_input.
  - unfold Part000.step. rewrite Hv.
    by apply (part000_invariant_input p
                (Part000.set_state (setQuery value) (Part000.hooks p))).
  - unfold Part000.step. rewrite Hv.
    by apply (part000_invariant_input p
                (Part000.set_state (setSql value) (Part000.hooks p))).
  - destruct (Part000.search_disabled v) eqn:Hen;
      [by unfold Part000.step; rewrite Hv, Hen|].
    destruct (part000_click p v Halive Hflight Hv Hen) as (k & Hk & ->).
    pose proof (part000_alive_wf p Halive) as Hwf.
    destruct Halive as (records & Hrecords & _).
    match goal with |- Part000.invariant (Part000.commit ?q) =>
      destruct (part000_commit_alive q records) as (Halive' & Hh & Hp & _)
    end; [done|by simpl; rewrite Hrecords|].
    left. split; [done|]. right. rewrite Hh, Hp. simpl. by eexists _, _.
  - destruct (Part000.pending p !! i) as [[rq k]|] eqn:Hi;
      [|by unfold Part000.step; rewrite Hv, Hi].
    destruct (part000_settle p i rq k r Hinv Hi) as (_ & _ & ->).
    pose proof (part000_alive_wf p Halive) as Hwf.
    match goal with |- Part000.invariant (Part000.commit ?q) =>
      destruct (Part000.results (Part000.hooks q)) as [records|] eqn:Hres;
      [destruct (part000_commit_alive q records) as (Halive' & Hh & Hp & _)
      |destruct (part000_commit_down q) as (Hdown & Hh & Hp & _)]
    end; try done.
    + left. split; [done|]. left. by rewrite Hh, Hp.
    + right. by rewrite Hdown, Hh, Hp.
Qed.

Lemma part000_reachable_invariant (p : Part000.page) :
  Part000.reachable p → Part000.invariant p.
Proof.
  induction 1 as [|p e _ IH]; [|by apply part000_invariant_step].
  left. split; [|by left].
  by destruct (part000_commit_alive
    {| Part000.hooks := Part000.init;
       Part000.cell := Part000.useCallback None
         {| Part000.dep_query := ""; Part000.dep_sql := "";
            Part000.dep_apiKey := ""; Part000.dep_collectionName := "" |};
       Part000.screen := None; Part000.pending := [];
       Part000.issued := [] |} []) as (? & _).
Qed.

(** X14.  In part_000, where the key and the collection name are hooks of
    [App], what is on screen is never behind: the four inputs show the
    hooks, the Search button is disabled exactly when a search is loading
    or the key or the collection name is empty, at most one fetch is in
    flight, and a click on the enabled button sends the request made of the
    four texts as they are. *)
Theorem part000_search_button (p : Part000.page) (v : Part000.view) :
  Part000.reachable p →
  Part000.screen p = Some v →
  (Part000.search_disabled v = true
   ↔ Part000.loading (Part000.hooks p) = true
     ∨ Part000.apiKey (Part000.hooks p) = ""
     ∨ Part000.collectionName (Part000.hooks p) = "")
  ∧ Part000.apiKey_value v = Part000.apiKey (Part000.hooks p)
  ∧ Part000.collectionName_value v = Part000.collectionName (Part000.hooks p)
  ∧ Part000.query_value v = Part000.query (Part000.hooks p)
  ∧ Part000.sql_value v = Part000.sql (Part000.hooks p)
  ∧ length (Part000.pending p) ≤ 1
  ∧ (Part000.search_disabled v = false →
     Part000.issued (Part000.step p Part000.ClickSearch)
     = Part000.issued p
       ++ [search_request {|
             SearchQuery.starpoint_api_key :=
               Part000.apiKey (Part000.hooks p);
             SearchQuery.starpoint_collection_name :=
               Part000.collectionName (Part000.hooks p);
             SearchQuery.query_to_embed :=
               Some (Part000.query (Part000.hooks p));
             SearchQuery.sql := Some (Part000.sql (Part000.hooks p));
           |}]).
Proof.
  intros Hinv%part000_reachable_invariant Hv.
  destruct Hinv as [(Halive & Hflight)|(Hdown & _)]; [|congruence].
  pose proof Halive as (records & _ & _ & _ & Hscreen).
  rewrite Hscreen in Hv. injection Hv as <-. simpl.
  split_and!; try done.
  - rewrite !orb_true_iff, !not_true. tauto.
  - destruct Hflight as [[-> _]|(? & ? & -> & _)]; simpl; lia.
  - intros Hen.
    destruct (part000_click p _ Halive Hflight Hscreen Hen) as (k & _ & ->).
    pose proof (part000_alive_wf p Halive) as Hwf.
    destruct Halive as (records' & Hrecords & _).
    match goal with |- Part000.issued (Part000.commit ?q) = _ =>
      destruct (part000_commit_alive q records') as (_ & _ & _ & ->)
    end; done.
Qed.

(** X15.  In part_000 the result list is rendered without a guard: when
    the body of a response parses to an object without a [results]
    member, the next render throws, the page goes down and no event brings
    it back.  A response with results puts one image per record on screen,
    in order, each with the download URL of its [photo_id] and a width of
    320px.  A body that is the JSON value [null] does not take the page
    down: reading its [results] throws inside the [try], the message of the
    TypeError becomes the error state and is shown, and the images stay. *)
Theorem part000_undefined_results (p : Part000.page) (i : nat)
    (rq : Request.t) (k : settled Response.t → task unit)
    (r : settled Response.t) :
  Part000.reachable p →
  Part000.pending p !! i = Some (rq, k) →
  let p' := Part000.step p (Part000.Settle i r) in
  (∀ response,
     search_promise r = fulfilled (Response.object response) →
     QueryResponse.results response = None →
     Part000.screen p' = None ∧ ∀ e, Part000.step p' e = p')
  ∧ (∀ response records,
       search_promise r = fulfilled (Response.object response) →
       QueryResponse.results response = Some records →
       ∃ v, Part000.screen p' = Some v
         ∧ Part000.images v = map Part000.image records
         ∧ Part000.loading_div v = false)
  ∧ (search_promise r = fulfilled Response.null →
       ∃ v, Part000.screen p' = Some v
         ∧ Part000.error (Part000.hooks p') = Some (TypeError_null "results")
         ∧ Part000.error_div v
           = (if decide (TypeError_null "results" = "") then None
              else Some (TypeError_null "results"))
         ∧ Part000.loading_div v = false
         ∧ Part000.results (Part000.hooks p') = Part000.results (Part000.hooks p)
         ∧ ∀ v0, Part000.screen p = Some v0 →
             Part000.images v = Part000.images v0)
  ∧ (∀ record,
       Part000.src (Part000.image record)
       = "https://unsplash.com/photos/"
           +:+ ToString (Result.get record "photo_id") +:+ "/download?w=320"
       ∧ Part000.width (Part000.image record) = "320px").
Proof.
  intros Hinv%part000_reachable_invariant Hi p'. subst p'.
  destruct (part000_settle p i rq k r Hinv Hi) as (Halive & _ & ->).
  pose proof (part000_alive_wf p Halive) as Hwf.
  unfold settle_setter. split_and!; [| | |done].
  - intros response Hr%search_outcome_object Hnone. rewrite Hr.
    match goal with |- Part000.screen (Part000.commit ?q) = _ ∧ _ =>
      destruct (part000_commit_down q) as (Hdown & _)
    end; [done|].
    split; [done|]. intros e. unfold Part000.step. by rewrite Hdown.
  - intros response records Hr%search_outcome_object Hrecords. rewrite Hr.
    match goal with |- ∃ _, Part000.screen (Part000.commit ?q) = _ ∧ _ =>
      destruct (part000_commit_alive q records)
        as ((records' & Hrecords' & _ & _ & Hscreen) & Hh & _)
    end; [done|done|].
    eexists. split; [exact Hscreen|]. rewrite Hh in *. simpl in *.
    by simplify_eq.
  - intros Hr%search_outcome_null. rewrite Hr.
    destruct Halive as (records & Hrecords & _ & _ & Hscreen0).
    match goal with |- ∃ _, Part000.screen (Part000.commit ?q) = _ ∧ _ =>
      destruct (part000_commit_alive q records)
        as ((records' & Hrecords' & _ & _ & Hscreen) & Hh & _)
    end; [done|done|].
    eexists. split; [exact Hscreen|]. rewrite Hh in *. simpl in *.
    simplify_eq. split_and!; try done.
    + unfold not_.
      by destruct (decide (TypeError_null "results" = "")) as [->|];
        [|rewrite bool_decide_eq_false_2].
    + intros v0. rewrite Hscreen0. by intros [= <-].
Qed.
End Part000Facts.

(** * The claims at work on the example session *)

#[local] Existing Instance example_host.

Lemma example_form_reachable : reachable Part001 example_form.
Proof. apply reachable_steps, reachable_start. Qed.

Lemma example_searching_reachable :
  reachable Part001 example_searching.
Proof. apply reachable_step, example_form_reachable. Qed.

Lemma example_searching_again_reachable :
  reachable Part001 example_searching_again.
Proof. do 2 apply reachable_step. apply example_searching_reachable. Qed.

(** C1 on a page whose local storage is empty: the click changes nothing. *)
Lemma search_requires_settings_witness :
  step Part001 (start Part001 ∅) ClickSearch
  = start Part001 ∅.
Proof.
  apply (search_requires_settings Part001
           (start Part001 ∅)).
  - apply reachable_start.
  - left. reflexivity.
Defined.

(** C2: the search in flight fails with "Failed to fetch", or it succeeds
    with the two records. *)
Lemma search_error_state_witness :
  let failed :=
    step Part001 example_searching
      (Settle 0 (rejected {| message := "Failed to fetch" |})) in
  let succeeded := step Part001 example_searching (Settle 0 example_response) in
  (AppState.error (app failed) = Some "Failed to fetch"
   ∧ App.error_div (screen failed) = Some "Failed to fetch")
  ∧ AppState.error (app succeeded) = None.
Proof.
  split.
  - eapply (search_error_state Part001 example_searching 0 _ _
              (rejected {| message := "Failed to fetch" |})).
    + apply example_searching_reachable.
    + reflexivity.
  - eapply (search_error_state Part001 example_searching 0 _ _
              example_response).
    + apply example_searching_reachable.
    + reflexivity.
    + apply example_form_reachable.
    + discriminate.
    + apply Forall_nil_2.
    + reflexivity.
Defined.

(** C2 as stated fails for a search call that succeeds with the body
    [null]: the error state is not null afterwards, it is the message of
    the TypeError, which is shown. *)
Lemma null_body_sets_error :
  let s' := step Part001 example_searching (Settle 0 example_null_body) in
  reachable Part001 example_searching
  ∧ is_Some (pending example_searching !! 0)
  ∧ search_promise example_null_body = fulfilled Response.null
  ∧ AppState.error (app s')
    = Some "Cannot read properties of null (reading 'results')"
  ∧ AppState.error (app s') ≠ None
  ∧ App.error_div (screen s')
    = Some "Cannot read properties of null (reading 'results')".
Proof.
  split_and!; [apply example_searching_reachable|by eexists|done..].
Qed.

(** C3: the click on the example form sends the form's query. *)
Lemma search_query_from_form_witness :
  issued (step Part001 example_form ClickSearch)
  = issued example_form
    ++ [search_request {|
          SearchQuery.starpoint_api_key := "key";
          SearchQuery.starpoint_collection_name := "photos";
          SearchQuery.query_to_embed := Some "a road in the forest";
          SearchQuery.sql := Some "SELECT * FROM collection";
        |}].
Proof.
  apply (search_query_from_form Part001 example_form).
  - apply example_form_reachable.
  - reflexivity.
  - discriminate.
  - discriminate.
Defined.

(** C4: a keystroke in the API key input of the drawer that is open over
    an empty local storage. *)
Lemma settings_persisted_witness :
  let s' := step Part001 (start Part001 ∅) (ChangeApiKey "k") in
  storage s' !! "api_key" = Some "k"
  ∧ Config.apiKey (config s') = "k"
  ∧ ∃ st', settings s' = Some st'
      ∧ Settings.api_value (Settings.render st') = "k".
Proof.
  eapply (settings_persisted Part001 (start Part001 ∅)).
  - apply reachable_start.
  - reflexivity.
Defined.

(** C6: a second click while the first search is in flight leaves two
    fetches in flight, and when the first of them fails the loading flag
    is reset with the second in flight still. *)
Lemma search_while_loading_witness :
  let s' := step Part001 example_searching ClickSearch in
  let s'' := step Part001 s'
               (Settle 0 (rejected {| message := "Failed to fetch" |})) in
  (AppState.loading (app example_searching) = true
   ∧ App.search_disabled (screen example_searching) = true
   ∧ length (pending example_searching) = 1)
  ∧ length (pending s') = 2
  ∧ AppState.loading (app s'') = false
  ∧ length (pending s'') = 1.
Proof.
  pose proof (search_while_loading Part001 example_searching
                example_searching_reachable eq_refl)
    as (_ & Hpending & _ & _ & Hsettle); [discriminate..|].
  split_and!; [reflexivity..|exact Hpending| |].
  - apply (Hsettle 0). rewrite Hpending. lia.
  - apply (Hsettle 0). rewrite Hpending. lia.
Defined.

(** C7: the search in flight succeeds with two records. *)
Lemma search_results_shown_witness :
  AppState.results (app (step Part001 example_searching
                           (Settle 0 example_response)))
  = Some example_records.
Proof.
  eapply (search_results_shown Part001 example_searching 0 _ _
            example_response example_data).
  - apply example_searching_reachable.
  - reflexivity.
  - reflexivity.
Defined.

(** C8: the page shows the two records and a second search fails. *)
Lemma failed_search_keeps_results_witness :
  let s' :=
    step Part001 example_searching_again
      (Settle 0 (rejected {| message := "Failed to fetch" |})) in
  AppState.results (app example_searching_again) = Some example_records
  ∧ App.wrap (screen example_searching_again)
    = Some (map (App.card Part001 false) example_records)
  ∧ AppState.results (app s') = AppState.results (app example_searching_again)
  ∧ App.wrap (screen s') = App.wrap (screen example_searching_again).
Proof.
  split_and!; [reflexivity..| |].
  - eapply (failed_search_keeps_results Part001 example_searching_again 0 _ _
              (rejected {| message := "Failed to fetch" |})).
    + apply example_searching_again_reachable.
    + reflexivity.
    + reflexivity.
  - eapply (failed_search_keeps_results Part001 example_searching_again 0 _ _
              (rejected {| message := "Failed to fetch" |})).
    + apply example_searching_again_reachable.
    + reflexivity.
    + reflexivity.
Defined.

(** C9: the card of the first of the two records, and the grid of the page
    that shows them. *)
Lemma card_of_record_witness :
  let record := {|
    Result.__id := "1"; Result.__distance := Some 0.25%float;
    Result.fields := {[ "photo_id" := JString "abc";
                        "ai_description" := JString "a forest road" ]} |} in
  let card := App.card Part001 false record in
  (ImageCard.photoUrl (App.props card)
   = "https://unsplash.com/photos/abc/download?w=320"
   ∧ App.key card = JString "abc"
   ∧ ImageCard.photoId (App.props card) = JString "abc"
   ∧ ImageCard.description (App.props card) = JString "a forest road")
  ∧ App.wrap (screen example_shown)
    = map (App.card Part001 (AppState.showInfo (app example_shown)))
        <$> AppState.results (app example_shown).
Proof.
  pose proof (card_of_record Part001 false
                {| Result.__id := "1"; Result.__distance := Some 0.25%float;
                   Result.fields := {[ "photo_id" := JString "abc";
                                       "ai_description" := JString "a forest road" ]} |}
                (JString "abc") eq_refl)
    as (Hurl & _ & Hkey & Hheading & Hdescription & _ & _ & Hgrid).
  split_and!.
  - exact Hurl.
  - exact Hkey.
  - exact Hheading.
  - exact Hdescription.
  - apply Hgrid. apply reachable_step, example_searching_reachable.
Defined.

(** * The further properties at work on the example session *)

Lemma example_unset_reachable : reachable Part001 example_unset.
Proof. apply reachable_start. Qed.

Lemma example_part000_reachable : Part000.reachable example_part000.
Proof. repeat apply Part000.reachable_step. apply Part000.reachable_start. Qed.

(** X1 on the example form, whose drawer is closed. *)
Lemma search_button_when_drawer_closed_witness :
  (App.search_disabled (screen example_form) = true
   ↔ AppState.loading (app example_form) = true
     ∨ Config.apiKey (config example_form) = ""
     ∨ Config.collectionName (config example_form) = "")
  ∧ settings example_form = None.
Proof.
  apply (search_button_when_drawer_closed Part001 example_form).
  - apply example_form_reachable.
  - reflexivity.
Defined.

(** X2 on the page over an empty local storage. *)
Lemma settings_then_close_witness :
  config (steps Part001 example_unset
            [ChangeApiKey "key"; ChangeCollectionName "photos"; CloseSettings])
  = {| Config.apiKey := "key"; Config.collectionName := "photos" |}.
Proof.
  eapply (settings_then_close Part001 example_unset _ "key" "photos").
  - apply example_unset_reachable.
  - reflexivity.
Defined.

(** X3 on the drawer that is open over an empty local storage. *)
Lemma settings_form_flags_refusal_witness :
  Settings.api_message (Settings.render (Settings.mount (config example_unset)))
  = Some "API Key is required"
  ↔ Config.apiKey (config example_unset) = "".
Proof.
  apply (settings_form_flags_refusal Part001 example_unset
           (Settings.mount (config example_unset))).
  - apply example_unset_reachable.
  - reflexivity.
Defined.

(** X4: the search in flight is answered by an error payload, or by the
    body [null]. *)
Lemma response_without_results_witness :
  App.wrap (screen (step Part001 example_searching
                      (Settle 0 example_error_payload)))
  = None
  ∧ AppState.error (app (step Part001 example_searching
                           (Settle 0 example_null_body)))
    = Some "Cannot read properties of null (reading 'results')".
Proof.
  split.
  - eapply (response_without_results Part001 example_searching 0 _ _
              example_error_payload).
    + apply example_searching_reachable.
    + reflexivity.
    + reflexivity.
    + reflexivity.
  - epose proof (response_without_results Part001 example_searching 0 _ _
                   example_null_body example_searching_reachable eq_refl)
      as (_ & _ & Hnull).
    exact (proj1 (proj2 (proj2 (Hnull eq_refl)))).
Defined.

(** X5 on a record with no field but its id. *)
Lemma card_without_photo_id_witness :
  let result := {| Result.__id := "7"; Result.__distance := None;
                   Result.fields := ∅ |} in
  App.key (App.card AppTsx false result) = JUndefined
  ∧ ImageCard.photoId (App.props (App.card AppTsx false result)) = JUndefined
  ∧ ImageCard.photoUrl (App.props (App.card AppTsx false result))
    = "https://unsplash.com/photos/undefined/download?w=320".
Proof.
  pose proof (card_without_photo_id AppTsx false
                {| Result.__id := "7"; Result.__distance := None;
                   Result.fields := ∅ |}) as (Hnone & _).
  destruct (Hnone eq_refl) as ((Hkey & Hheading & _) & Hurl).
  split_and!; [exact Hkey|exact Hheading|exact Hurl].
Defined.

(** X6 on the example form. *)
Lemma toggle_image_info_witness :
  AppState.showInfo (app (step Part001 example_form ClickShowInfo))
  = negb (AppState.showInfo (app example_form)).
Proof.
  exact (proj1 (toggle_image_info example_form example_form_reachable)).
Defined.

(** X7 on the page with a search in flight. *)
Lemma reload_restores_settings_witness :
  config (start Part001 (storage example_searching))
  = config example_searching.
Proof.
  apply (reload_restores_settings Part001 example_searching).
  apply example_searching_reachable.
Defined.

(** X8 on the drawer that is open over an empty local storage. *)
Lemma settings_keystrokes_compose_witness :
  step Part001 (step Part001 example_unset (ChangeApiKey "k"))
    (ChangeApiKey "key")
  = step Part001 example_unset (ChangeApiKey "key").
Proof.
  eapply (settings_keystrokes_compose Part001 example_unset _ "k" "key").
  reflexivity.
Defined.

(** X9 on the example form. *)
Lemma search_start_witness :
  App.spinner (screen (step Part001 example_form ClickSearch)) = true.
Proof.
  apply (search_start Part001 example_form).
  - apply example_form_reachable.
  - reflexivity.
  - discriminate.
  - discriminate.
Defined.

(** X10: typing while the search is in flight. *)
Lemma only_searches_write_results_witness :
  pending (step Part001 example_searching (ChangeQuery "a lake"))
  = pending example_searching.
Proof.
  apply (only_searches_write_results Part001 example_searching
           (ChangeQuery "a lake")).
  - discriminate.
  - discriminate.
Defined.

(** X11 on a card that scrolls into view and is clicked. *)
Lemma card_lifecycle_witness :
  ImageCard.Intersect true ∈ example_card_events
  ∧ ImageCard.observing
      (foldl ImageCard.step ImageCard.mount example_card_events)
    = false.
Proof.
  apply (card_lifecycle example_card_events). reflexivity.
Defined.

(** X12 on the page over the filled-in local storage. *)
Lemma type_then_search_witness :
  AppState.loading
    (app (steps Part001 (start Part001 example_storage)
            [ChangeQuery "a lake";
             SqlEditor.handleChange ChangeSql "SELECT 1"; ClickSearch]))
  = true.
Proof.
  apply (type_then_search Part001 (start Part001 example_storage)
           "a lake" "SELECT 1").
  - apply reachable_start.
  - reflexivity.
  - reflexivity.
  - discriminate.
  - discriminate.
Defined.

(** X13 on the example form. *)
Lemma reopened_settings_witness :
  settings (steps Part001 example_form [CloseSettings; ClickSettings])
  = Some (Settings.mount (config example_form)).
Proof.
  apply (reopened_settings Part001 example_form).
  apply example_form_reachable.
Defined.

(** X14 and X15 on the first revision with a search in flight. *)
Lemma part000_search_button_witness :
  length (Part000.pending example_part000) ≤ 1.
Proof.
  eapply (part000_search_button example_part000).
  - apply example_part000_reachable.
  - reflexivity.
Defined.

Lemma part000_undefined_results_witness :
  Part000.screen
    (Part000.step example_part000 (Part000.Settle 0 example_error_payload))
  = None.
Proof.
  eapply (part000_undefined_results example_part000 0 _ _
            example_error_payload).
  - apply example_part000_reachable.
  - reflexivity.
  - reflexivity.
  - reflexivity.
Defined.
